(** * athena-query-result-pager: the pagination protocol of [src/index.ts]

    The pager talks to two collaborators, the Athena client ([client.send])
    and the row-set parser of [athena-query-result-parser], and hands pages
    to whoever consumes its async generators.  The methods are embedded as
    interaction trees: every [await this.client.send(...)], every access to
    the [this] object and every [yield] is an event, the [do ... while] loops
    are [ITree.iter], and a JavaScript exception is the left summand of the
    value an operation returns. *)

From Stdlib Require Import String List ZArith Bool Lia.
From ITree Require Import ITree ITreeFacts Events.State Events.StateFacts Props.HasPost.
From Paco Require Import paco.
Import ListNotations.
Import ITreeNotations.

Local Open Scope string_scope.
Local Open Scope list_scope.
Local Open Scope itree_scope.

Set Implicit Arguments.

(** * Part I: the embedding *)

(** ** JavaScript values *)

(** The values that occur in the request object literal. *)
Inductive JsValue : Type :=
| JsUndefined
| JsString (s : string)
| JsNumber (n : Z).

(** An object literal: its own properties in the order they are written. *)
Definition JsObject : Type := list (string * JsValue).

Definition js_keys (o : JsObject) : list string :=
  List.map (@Datatypes.fst string JsValue) o.

(** A value of type [string | undefined] read from a variable or property:
    [None] is [undefined]. *)
Definition js_of_string_or_undefined (v : option string) : JsValue :=
  match v with
  | Some s => JsString s
  | None => JsUndefined
  end.

(** Truthiness of a [string | undefined] value, as tested by [while (nextToken)]:
    [undefined] and the empty string are falsy, every other string is truthy. *)
Definition truthy (v : option string) : bool :=
  match v with
  | Some s => negb (String.eqb s "")
  | None => false
  end.

(** [v !== undefined] *)
Definition present (v : option string) : bool :=
  match v with
  | Some _ => true
  | None => false
  end.

(** [a ?? b] *)
Definition nullish {A : Type} (a : option A) (b : A) : A :=
  match a with
  | Some x => x
  | None => b
  end.

(** An optional property [p?: A] of an object: it may be missing from the
    object, be there holding [undefined], or hold a value. *)
Inductive OptionalProperty (A : Type) : Type :=
| PropMissing
| PropUndefined
| PropValue (a : A).
Arguments PropMissing {A}.
Arguments PropUndefined {A}.
Arguments PropValue {A} a.

(** Reading the property, [o.p]: a missing property reads as [undefined]. *)
Definition prop_read {A : Type} (p : OptionalProperty A) : option A :=
  match p with
  | PropValue a => Some a
  | PropMissing | PropUndefined => None
  end.

(** Writing [p: v] in an object literal, with [v : A | undefined]. *)
Definition prop_of {A : Type} (v : option A) : OptionalProperty A :=
  match v with
  | Some a => PropValue a
  | None => PropUndefined
  end.

(** ** Wire types of [@aws-sdk/client-athena] used by the pager and its tests *)

Record ColumnInfo : Type := { Name : string; Type_ : string }.

(** What the [VarCharValue] property of a datum holds at run time.  The SDK
    declares it [string | undefined]; the test doubles fill it with
    [r[col] ?? undefined], and a property read also finds what the row object
    inherits from [Object.prototype]. *)
Inductive CellValue : Type :=
| CellString (s : string)
| CellUndefined
| CellInherited (member : string).
    (* [Object.prototype[member]]: a function, or the prototype itself for
       [__proto__]; no string and not [undefined] *)

Record Datum : Type := { VarCharValue : CellValue }.
Record Row : Type := { Data : list Datum }.
Record ResultSet : Type :=
  { ResultSetMetadata : list ColumnInfo;   (* ResultSetMetadata.ColumnInfo *)
    Rows : list Row }.

(** [GetQueryResultsCommandInput], as the object literal the pager builds. *)
Definition GetQueryResultsCommandInput : Type := JsObject.

(** The two properties of [GetQueryResultsCommandOutput] the pager reads. *)
Record GetQueryResultsCommandOutput : Type :=
  { ResultSet_ : option ResultSet;
    NextToken : option string }.

(** [ParsedRow] of the parser package: column name to cell, [null] as [None]. *)
Definition ParsedRow : Type := list (string * option string).

(** ** The pager's own types *)

Definition DEFAULT_MAX_RESULTS : Z := 1000.
Definition DEFAULT_QUERY_RESULT_TYPE : string := "DATA_ROWS".

Record PageResult (T : Type) : Type :=
  { rows : list T;
    nextToken : OptionalProperty string;
    rowCount : Z }.

(** [PagerOptions]: both properties optional.  The declared type of
    [queryResultType] is the literal ['DATA_ROWS']; it is kept as the string
    it is at run time. *)
Record PagerOptions : Type :=
  { opt_maxResults : option Z;
    opt_queryResultType : option string }.

(** [Required<PagerOptions>] *)
Record RequiredPagerOptions : Type :=
  { maxResults : Z;
    queryResultType : string }.

(** [AthenaQueryResultPager.hasNextPage]: [pageResult.nextToken !== undefined]. *)
Definition hasNextPage {T : Type} (pageResult : PageResult T) : bool :=
  present (prop_read (nextToken pageResult)).

(** ** The collaborators

    Neither the Athena client nor the parser class is part of this
    repository; the pager only calls them.  A call takes the state of the
    collaborator and gives the state it leaves behind together with what the
    call returned (or the promise resolved to), on the right, or what it threw
    (or the promise rejected with), on the left. *)
Class Collaborators : Type :=
  { (** whatever a collaborator throws *)
    Error : Type;
    (** [class AthenaQueryResultParser], its [new], and the two methods used *)
    AthenaQueryResultParser : Type;
    new_AthenaQueryResultParser : AthenaQueryResultParser;
    parseResultSet :
      AthenaQueryResultParser -> option ResultSet ->
      AthenaQueryResultParser * (Error + list ParsedRow);
    parseResultSetWith :
      forall T : Type,
        AthenaQueryResultParser -> option ResultSet -> (ParsedRow -> Error + T) ->
        AthenaQueryResultParser * (Error + list T);
    (** the service behind [AthenaClient.send(new GetQueryResultsCommand(input))] *)
    AthenaClient : Type;
    send :
      AthenaClient -> GetQueryResultsCommandInput ->
      AthenaClient * (Error + GetQueryResultsCommandOutput) }.

Section Pager.

Context {collaborators : Collaborators}.

(** [RowParser<T>]: a caller's function, which may throw. *)
Definition RowParser (T : Type) : Type := ParsedRow -> Error + T.

(** The fields of a pager instance ([client] is the service itself and lives
    in the world the pager runs in). *)
Record AthenaQueryResultPager : Type :=
  { options : RequiredPagerOptions;
    parser : AthenaQueryResultParser }.

(** [constructor(client, options = {})] *)
Definition new_AthenaQueryResultPager (opts : PagerOptions) : AthenaQueryResultPager :=
  {| options :=
       {| maxResults := nullish (opt_maxResults opts) DEFAULT_MAX_RESULTS;
          queryResultType := nullish (opt_queryResultType opts) DEFAULT_QUERY_RESULT_TYPE |};
     parser := new_AthenaQueryResultParser |}.

(** *** Events of a method body

    [Y] is what the enclosing async generator yields ([AsyncGenerator<Y>]);
    a plain async method never yields and is typed for every [Y]. *)
Variant pagerE (Y : Type) : Type -> Type :=
| Send (input : GetQueryResultsCommandInput)
    : pagerE Y (Error + GetQueryResultsCommandOutput)
    (* await this.client.send(new GetQueryResultsCommand(input)) *)
| GetThis : pagerE Y AthenaQueryResultPager
    (* reading this.options / this.parser *)
| SetParser (p : AthenaQueryResultParser) : pagerE Y unit
    (* this.parser = p, and the state a method call leaves in this.parser *)
| Yield (y : Y) : pagerE Y unit.
    (* yield y: control returns when the consumer asks for the next element *)
Arguments Send {Y} input.
Arguments GetThis {Y}.
Arguments SetParser {Y} p.
Arguments Yield {Y} y.

(** [x <-? t ;; k]: run [t]; an exception it threw propagates, a value is
    bound to [x]. *)
Notation "x <-? t ;; k" :=
  (ITree.bind t (fun r_ => match r_ with
                           | inl e_ => Ret (inl e_)
                           | inr x => k
                           end))
    (at level 61, t at next level, right associativity) : itree_scope.

(** [fetchPage(queryExecutionId, nextToken?)] *)
Definition fetchPage {Y : Type} (queryExecutionId : string) (nextToken : option string)
  : itree (pagerE Y) (Error + PageResult ParsedRow) :=
  this <- ITree.trigger GetThis ;;
  let input : GetQueryResultsCommandInput :=
    [ ("QueryExecutionId", JsString queryExecutionId);
      ("NextToken", js_of_string_or_undefined nextToken);
      ("MaxResults", JsNumber (maxResults (options this))) ] in
  response <-? ITree.trigger (Send input) ;;
  this <- ITree.trigger GetThis ;;
  let '(p, r) := parseResultSet (parser this) (ResultSet_ response) in
  ITree.trigger (SetParser p) ;;
  rows <-? Ret r ;;
  Ret (inr {| rows := rows;
              nextToken := prop_of (NextToken response);
              rowCount := Z.of_nat (length rows) |}).

(** [fetchPageWith<T>(queryExecutionId, rowParser, nextToken?)] *)
Definition fetchPageWith {Y T : Type} (queryExecutionId : string)
    (rowParser : RowParser T) (nextToken : option string)
  : itree (pagerE Y) (Error + PageResult T) :=
  this <- ITree.trigger GetThis ;;
  let input : GetQueryResultsCommandInput :=
    [ ("QueryExecutionId", JsString queryExecutionId);
      ("NextToken", js_of_string_or_undefined nextToken);
      ("MaxResults", JsNumber (maxResults (options this))) ] in
  response <-? ITree.trigger (Send input) ;;
  this <- ITree.trigger GetThis ;;
  let '(p, r) := parseResultSetWith (parser this) (ResultSet_ response) rowParser in
  ITree.trigger (SetParser p) ;;
  rows <-? Ret r ;;
  Ret (inr {| rows := rows;
              nextToken := prop_of (NextToken response);
              rowCount := Z.of_nat (length rows) |}).

(** [async *iteratePages(queryExecutionId)]: the loop variable is
    [nextToken], written [nextToken_] here ([nextToken] being the property of
    the page); [inl] goes round the [do ... while] again, [inr] leaves the
    generator, by a thrown exception or by falling off its end. *)
Definition iteratePages (queryExecutionId : string)
  : itree (pagerE (PageResult ParsedRow)) (Error + unit) :=
  ITree.iter
    (fun nextToken_ : option string =>
       r <- fetchPage queryExecutionId nextToken_ ;;
       match r with
       | inl e => Ret (inr (inl e))
       | inr page =>
           ITree.trigger (Yield page) ;;
           let nextToken_ := prop_read (nextToken page) in
           if truthy nextToken_ then Ret (inl nextToken_) else Ret (inr (inr tt))
       end)
    None.

(** [async *iteratePagesWith<T>(queryExecutionId, rowParser)] *)
Definition iteratePagesWith {T : Type} (queryExecutionId : string)
    (rowParser : RowParser T)
  : itree (pagerE (PageResult T)) (Error + unit) :=
  ITree.iter
    (fun nextToken_ : option string =>
       r <- fetchPageWith queryExecutionId rowParser nextToken_ ;;
       match r with
       | inl e => Ret (inr (inl e))
       | inr page =>
           ITree.trigger (Yield page) ;;
           let nextToken_ := prop_read (nextToken page) in
           if truthy nextToken_ then Ret (inl nextToken_) else Ret (inr (inr tt))
       end)
    None.

(** [for (const x of xs) body] *)
Fixpoint for_of {E : Type -> Type} {A : Type} (xs : list A) (body : A -> itree E unit)
  : itree E unit :=
  match xs with
  | [] => Ret tt
  | x :: xs' => body x ;; for_of xs' body
  end.

(** What [for await (const y of gen) body] makes of each step of [gen]: an
    element it yields runs [body], everything else happens as it is. *)
Definition for_await_step {Y Y' : Type} (body : Y -> itree (pagerE Y') unit)
  : pagerE Y ~> itree (pagerE Y') :=
  fun X (e : pagerE Y X) =>
    match e in pagerE _ X return itree (pagerE Y') X with
    | Yield y => body y
    | Send input => ITree.trigger (Send input)
    | GetThis => ITree.trigger GetThis
    | SetParser p => ITree.trigger (SetParser p)
    end.

(** [for await (const y of gen) body]: the loop drives [gen], and what ends
    [gen] ends the loop. *)
Definition for_await {Y Y' R : Type} (gen : itree (pagerE Y) R)
    (body : Y -> itree (pagerE Y') unit) : itree (pagerE Y') R :=
  interp (for_await_step body) gen.

(** [async *iterateRows<T>(queryExecutionId, rowParser)] *)
Definition iterateRows {T : Type} (queryExecutionId : string)
    (rowParser : RowParser T) : itree (pagerE T) (Error + unit) :=
  for_await (iteratePagesWith queryExecutionId rowParser)
    (fun page => for_of (rows page) (fun row => ITree.trigger (Yield row))).

(** [reset()] *)
Definition reset {Y : Type} : itree (pagerE Y) unit :=
  ITree.trigger (SetParser new_AthenaQueryResultParser).

(** ** The world a method runs in *)

(** What an outside observer sees of a run, in the order it happens. *)
Inductive Observed (Y : Type) : Type :=
| Fetched (input : GetQueryResultsCommandInput)   (* a request reached the service *)
| Yielded (y : Y).                                (* the consumer received [y] *)
Arguments Fetched {Y} input.
Arguments Yielded {Y} y.

Record World (Y : Type) : Type :=
  { client : AthenaClient;
    this : AthenaQueryResultPager;
    log : list (Observed Y) }.

Definition sent {Y : Type} (input : GetQueryResultsCommandInput) (c : AthenaClient)
    (w : World Y) : World Y :=
  {| client := c; this := this w; log := log w ++ [Fetched input] |}.

Definition with_parser {Y : Type} (p : AthenaQueryResultParser) (w : World Y) : World Y :=
  {| client := client w;
     this := {| options := options (this w); parser := p |};
     log := log w |}.

Definition yielded {Y : Type} (y : Y) (w : World Y) : World Y :=
  {| client := client w; this := this w; log := log w ++ [Yielded y] |}.

(** The meaning of the events.  The consumer of a generator takes each
    element and asks for the next one. *)
Definition handle {Y : Type} : pagerE Y ~> Monads.stateT (World Y) (itree void1) :=
  fun X e w =>
    match e in pagerE _ X return itree void1 (World Y * X) with
    | Send input => let '(c, r) := send (client w) input in Ret (sent input c w, r)
    | GetThis => Ret (w, this w)
    | SetParser p => Ret (with_parser p w, tt)
    | Yield y => Ret (yielded y w, tt)
    end.

(** Running a method body in a world. *)
Definition run {Y R : Type} (t : itree (pagerE Y) R) (w : World Y)
  : itree void1 (World Y * R) :=
  interp_state handle t w.

(** *** The same run, with the consumer in sight

    In [run] the consumer is part of the world, and a run that goes on for
    ever shows nothing.  Here every element the generator yields is an event
    of the run itself, which stops there until the consumer asks for the next
    element; the service and the pager object are handled as in [run]. *)
Variant consumerE (Y : Type) : Type -> Type :=
| Hand (y : Y) : consumerE Y unit.
Arguments Hand {Y} y.

Definition handle_visibly {Y : Type}
  : pagerE Y ~> Monads.stateT (World Y) (itree (consumerE Y)) :=
  fun X e w =>
    match e in pagerE _ X return itree (consumerE Y) (World Y * X) with
    | Send input => let '(c, r) := send (client w) input in Ret (sent input c w, r)
    | GetThis => Ret (w, this w)
    | SetParser p => Ret (with_parser p w, tt)
    | Yield y => ITree.trigger (Hand y) ;; Ret (yielded y w, tt)
    end.

Definition run_visibly {Y R : Type} (t : itree (pagerE Y) R) (w : World Y)
  : itree (consumerE Y) (World Y * R) :=
  interp_state handle_visibly t w.

(** A consumer that takes every element and asks for the next one at once. *)
Definition take_all {Y : Type} : consumerE Y ~> itree void1 :=
  fun X e =>
    match e in consumerE _ X return itree void1 X with
    | Hand _ => Ret tt
    end.

(** The elements yielded and the requests sent, read off a log. *)
Fixpoint yields_of {Y : Type} (l : list (Observed Y)) : list Y :=
  match l with
  | [] => []
  | Yielded y :: l' => y :: yields_of l'
  | Fetched _ :: l' => yields_of l'
  end.

Fixpoint requests_of {Y : Type} (l : list (Observed Y)) : list GetQueryResultsCommandInput :=
  match l with
  | [] => []
  | Fetched input :: l' => input :: requests_of l'
  | Yielded _ :: l' => requests_of l'
  end.

(** ** Vocabulary of the statements *)

(** The request of one page fetch. *)
Definition request (queryExecutionId : string) (nextToken : option string)
    (maxResults : Z) : GetQueryResultsCommandInput :=
  [ ("QueryExecutionId", JsString queryExecutionId);
    ("NextToken", js_of_string_or_undefined nextToken);
    ("MaxResults", JsNumber maxResults) ].

(** The page made of a response and the rows parsed from it. *)
Definition page_of {T : Type} (response : GetQueryResultsCommandOutput) (rows : list T)
  : PageResult T :=
  {| rows := rows;
     nextToken := prop_of (NextToken response);
     rowCount := Z.of_nat (length rows) |}.

(** [rowCount == rows.length] *)
Definition consistent {T : Type} (page : PageResult T) : Prop :=
  rowCount page = Z.of_nat (length (rows page)).

(** Where one page fetch leaves the world, and what it returns or throws:
    the request goes out; a failing service leaves the parser alone; a
    response goes through the parser, which may fail too. *)
Definition fetched {Y T : Type}
    (parse : AthenaQueryResultParser -> option ResultSet ->
             AthenaQueryResultParser * (Error + list T))
    (queryExecutionId : string) (nextToken : option string)
    (w : World Y) : World Y * (Error + PageResult T) :=
  let input := request queryExecutionId nextToken (maxResults (options (this w))) in
  match send (client w) input with
  | (c, inl e) => (sent input c w, inl e)
  | (c, inr response) =>
      match parse (parser (this w)) (ResultSet_ response) with
      | (p, inl e) => (with_parser p (sent input c w), inl e)
      | (p, inr rows) => (with_parser p (sent input c w), inr (page_of response rows))
      end
  end.

(** [iteratePages] and [iteratePagesWith] are the same loop around two fetch
    methods; [paging] is that loop, entered with any token. *)
Definition paging {T : Type}
    (fetch : option string -> itree (pagerE (PageResult T)) (Error + PageResult T))
    (nextToken_ : option string) : itree (pagerE (PageResult T)) (Error + unit) :=
  ITree.iter
    (fun nextToken_ : option string =>
       r <- fetch nextToken_ ;;
       match r with
       | inl e => Ret (inr (inl e))
       | inr page =>
           ITree.trigger (Yield page) ;;
           let nextToken_ := prop_read (nextToken page) in
           if truthy nextToken_ then Ret (inl nextToken_) else Ret (inr (inr tt))
       end)
    nextToken_.

(** One turn of the loop seen from outside: after the fetch, either the
    exception leaves the generator, or the page is yielded and its token
    tested. *)
Definition turn {T : Type} (o : World (PageResult T) * (Error + PageResult T))
    (again : option string -> World (PageResult T)
             -> itree void1 (World (PageResult T) * (Error + unit)))
  : itree void1 (World (PageResult T) * (Error + unit)) :=
  match o with
  | (w1, inl e) => Ret (w1, inl e)
  | (w1, inr page) =>
      if truthy (prop_read (nextToken page))
      then again (prop_read (nextToken page)) (yielded page w1)
      else Ret (yielded page w1, inr tt)
  end.

(** The same turn as a step of a state machine on the world and the token:
    go on ([inl]) or stop ([inr]). *)
Definition paging_step {T : Type}
    (outcome : option string -> World (PageResult T)
               -> World (PageResult T) * (Error + PageResult T))
    (st : World (PageResult T) * option string)
  : (World (PageResult T) * option string) + (World (PageResult T) * (Error + unit)) :=
  match outcome (Datatypes.snd st) (Datatypes.fst st) with
  | (w1, inl e) => inr (w1, inl e)
  | (w1, inr page) =>
      if truthy (prop_read (nextToken page))
      then inl (yielded page w1, prop_read (nextToken page))
      else inr (yielded page w1, inr tt)
  end.

Section Served.

Variable T : Type.
Variable parse :
  AthenaQueryResultParser -> option ResultSet ->
  AthenaQueryResultParser * (Error + list T).
Variable queryExecutionId : string.
Variable m : Z.

(** A response of the service with the rows the parser made of it. *)
Definition Exchange : Type := (GetQueryResultsCommandOutput * list T)%type.

Definition exchange_token (x : Exchange) : option string :=
  NextToken (Datatypes.fst x).

Definition exchange_page (x : Exchange) : PageResult T :=
  page_of (Datatypes.fst x) (Datatypes.snd x).

(** [Chain more c p tok xs c' p']: asked for the page at [tok] with the
    service in state [c] and the parser in state [p], the service serves the
    pages [xs] one after the other, each request carrying the token of the
    page before; every page but the last has a token that leads on ([more]),
    the last has not.  The service and the parser end in [c'] and [p']. *)
Inductive Chain (more : option string -> bool)
  : AthenaClient -> AthenaQueryResultParser -> option string -> list Exchange
    -> AthenaClient -> AthenaQueryResultParser -> Prop :=
| chain_last c p tok response rows c1 p1 :
    send c (request queryExecutionId tok m) = (c1, inr response) ->
    parse p (ResultSet_ response) = (p1, inr rows) ->
    more (NextToken response) = false ->
    Chain more c p tok [(response, rows)] c1 p1
| chain_link c p tok response rows c1 p1 xs c' p' :
    send c (request queryExecutionId tok m) = (c1, inr response) ->
    parse p (ResultSet_ response) = (p1, inr rows) ->
    more (NextToken response) = true ->
    Chain more c1 p1 (NextToken response) xs c' p' ->
    Chain more c p tok ((response, rows) :: xs) c' p'.

(** [Broken more c p tok xs e c' p']: as above for the pages [xs], whose
    tokens all lead on, but the fetch after them fails with [e], in the
    service or in the parser. *)
Inductive Broken (more : option string -> bool)
  : AthenaClient -> AthenaQueryResultParser -> option string -> list Exchange
    -> Error -> AthenaClient -> AthenaQueryResultParser -> Prop :=
| broken_send c p tok e c1 :
    send c (request queryExecutionId tok m) = (c1, inl e) ->
    Broken more c p tok [] e c1 p
| broken_parse c p tok response e c1 p1 :
    send c (request queryExecutionId tok m) = (c1, inr response) ->
    parse p (ResultSet_ response) = (p1, inl e) ->
    Broken more c p tok [] e c1 p1
| broken_link c p tok response rows c1 p1 xs e c' p' :
    send c (request queryExecutionId tok m) = (c1, inr response) ->
    parse p (ResultSet_ response) = (p1, inr rows) ->
    more (NextToken response) = true ->
    Broken more c1 p1 (NextToken response) xs e c' p' ->
    Broken more c p tok ((response, rows) :: xs) e c' p'.

(** The log of fetching and yielding the pages [xs] in turn, the first
    request carrying [tok]. *)
Fixpoint chain_log (tok : option string) (xs : list Exchange)
  : list (Observed (PageResult T)) :=
  match xs with
  | [] => []
  | x :: xs' =>
      Fetched (request queryExecutionId tok m)
        :: Yielded (exchange_page x)
        :: chain_log (exchange_token x) xs'
  end.

(** The token of the request that follows the pages [xs]. *)
Fixpoint chain_token (tok : option string) (xs : list Exchange) : option string :=
  match xs with
  | [] => tok
  | x :: xs' => chain_token (exchange_token x) xs'
  end.

(** The world after the pages [xs], [extra] being what else went to the log. *)
Definition world_after (w : World (PageResult T)) (tok : option string)
    (xs : list Exchange) (extra : list (Observed (PageResult T)))
    (c' : AthenaClient) (p' : AthenaQueryResultParser) : World (PageResult T) :=
  {| client := c';
     this := {| options := options (this w); parser := p' |};
     log := log w ++ chain_log tok xs ++ extra |}.

End Served.

(** ** Properties of a whole tree, whatever answers the events get *)

(** One layer of "every element yielded satisfies [P] and every result
    satisfies [Q]". *)
Inductive producesF {Y R : Type} (P : Y -> Prop) (Q : R -> Prop)
    (rec : itree (pagerE Y) R -> Prop) : itree' (pagerE Y) R -> Prop :=
| produces_Ret r : Q r -> producesF P Q rec (RetF r)
| produces_Tau t : rec t -> producesF P Q rec (TauF t)
| produces_Send input k :
    (forall a, rec (k a)) -> producesF P Q rec (VisF (Send input) k)
| produces_GetThis k :
    (forall a, rec (k a)) -> producesF P Q rec (VisF GetThis k)
| produces_SetParser p k :
    (forall a, rec (k a)) -> producesF P Q rec (VisF (SetParser p) k)
| produces_Yield y k :
    P y -> (forall a, rec (k a)) -> producesF P Q rec (VisF (Yield y) k).

Definition produces_ {Y R : Type} (P : Y -> Prop) (Q : R -> Prop)
    (rec : itree (pagerE Y) R -> Prop) (t : itree (pagerE Y) R) : Prop :=
  producesF P Q rec (observe t).

(** [produces P Q t]: along every path of [t], finite or not and whatever
    the service, the pager object and the consumer answer, each element
    yielded satisfies [P] and a result, if one is reached, satisfies [Q]. *)
Definition produces {Y R : Type} (P : Y -> Prop) (Q : R -> Prop)
    (t : itree (pagerE Y) R) : Prop :=
  paco1 (produces_ P Q) bot1 t.

(** What a page fetch returns is a consistent page, if it returns. *)
Definition returns_consistent {T : Type} (r : Error + PageResult T) : Prop :=
  match r with
  | inl _ => True
  | inr page => consistent page
  end.

End Pager.

Arguments Send {collaborators Y} input.
Arguments GetThis {collaborators Y}.
Arguments SetParser {collaborators Y} p.
Arguments Yield {collaborators Y} y.
Arguments Fetched {Y} input.
Arguments Yielded {Y} y.
Arguments Hand {Y} y.

(** ** Flattening pages into rows *)

Section Flatten.

Context {collaborators : Collaborators}.

(** The log a consumer of rows sees for the log a consumer of pages sees:
    the requests as they are, each page replaced by its rows in order. *)
Fixpoint flatten_log {T : Type} (l : list (Observed (PageResult T))) : list (Observed T) :=
  match l with
  | [] => []
  | Fetched input :: l' => Fetched input :: flatten_log l'
  | Yielded page :: l' => List.map (@Yielded T) (rows page) ++ flatten_log l'
  end.

(** A world of [iterateRows] and a world of [iteratePagesWith] that went
    through the same, up to flattening. *)
Definition flattens {T : Type} (wr : World T) (wp : World (PageResult T)) : Prop :=
  client wr = client wp /\ this wr = this wp /\ log wr = flatten_log (log wp).

(** The consumer received the elements [ys] one after the other. *)
Definition yielded_all {Y : Type} (ys : list Y) (w : World Y) : World Y :=
  {| client := client w; this := this w; log := log w ++ List.map (@Yielded Y) ys |}.

(** One turn of the loop of [iterateRows], as a step on the world and the
    token: the page fetched is handed on row by row. *)
Definition rows_step {T : Type}
    (outcome : option string -> World T -> World T * (Error + PageResult T))
    (st : World T * option string)
  : (World T * option string) + (World T * (Error + unit)) :=
  match outcome (Datatypes.snd st) (Datatypes.fst st) with
  | (w1, inl e) => inr (w1, inl e)
  | (w1, inr page) =>
      if truthy (prop_read (nextToken page))
      then inl (yielded_all (rows page) w1, prop_read (nextToken page))
      else inr (yielded_all (rows page) w1, inr tt)
  end.

End Flatten.

(** ** The row-set parser, from its contract *)

(** Modelled from the spec: the Row-Set Parser ([AthenaQueryResultParser] of
    the package [athena-query-result-parser]), whose source is not in the
    repository.  The spec says of it: it "converts one page's tabular payload
    into a sequence of row objects", a raw row being a "mapping of column
    name -> string value, or null/absent for missing cells"; it "internally
    tracks whether it has already consumed a header/column-metadata row";
    the header row is the row "whose cell values equal the column names", and
    the parser is "responsible for recognizing and skipping exactly one such
    header row per parser-instance lifetime"; [parseResultSetWith] converts
    each row with the caller's [rowParser], "invoked once per row in page
    order", whose exceptions "propagate uncaught". *)
Record SpecParser : Type := { headerSeen : bool }.

(** Modelled from the spec: [new AthenaQueryResultParser()], "a freshly
    initialized one (header-seen flag cleared)". *)
Definition new_SpecParser : SpecParser := {| headerSeen := false |}.

(** Equality of cells, for recognizing the header row. *)

Definition cell_eqb (a b : CellValue) : bool :=
  match a, b with
  | CellString x, CellString y => String.eqb x y
  | CellUndefined, CellUndefined => true
  | CellInherited x, CellInherited y => String.eqb x y
  | _, _ => false
  end.

Fixpoint cells_eqb (xs ys : list CellValue) : bool :=
  match xs, ys with
  | [], [] => true
  | x :: xs', y :: ys' => cell_eqb x y && cells_eqb xs' ys'
  | _, _ => false
  end.

(** Modelled from the spec: the header row is the row "whose cell values
    equal the column names". *)
Definition is_header (columns : list string) (r : Row) : bool :=
  cells_eqb (List.map VarCharValue (Data r)) (List.map CellString columns).

(** Modelled from the spec: a cell of a raw row is a "string value, or
    null/absent for missing cells"; a cell that holds no string is a missing
    cell. *)
Definition cell_of (v : CellValue) : option string :=
  match v with
  | CellString s => Some s
  | CellUndefined | CellInherited _ => None
  end.

(** Modelled from the spec: a raw row object, "mapping of column name ->
    string value, or null/absent for missing cells". *)
Definition row_object (columns : list string) (r : Row) : ParsedRow :=
  List.combine columns (List.map (fun d => cell_of (VarCharValue d)) (Data r)).

(** Modelled from the spec: "recognizing and skipping exactly one such header
    row per parser-instance lifetime"; the flag is set when a header row is
    skipped. *)
Definition skip_header (p : SpecParser) (columns : list string) (rs : list Row)
  : SpecParser * list Row :=
  if headerSeen p then (p, rs)
  else match rs with
       | r :: rs' => if is_header columns r then ({| headerSeen := true |}, rs') else (p, rs)
       | [] => (p, rs)
       end.

(** Modelled from the spec: [parseResultSet(resultSet)], a "sequence of
    RawRow", the header row skipped once per instance. *)
Definition spec_parseResultSet {Err : Type} (p : SpecParser) (resultSet : option ResultSet)
  : SpecParser * (Err + list ParsedRow) :=
  match resultSet with
  | None => (p, inr [])
  | Some rs =>
      let columns := List.map Name (ResultSetMetadata rs) in
      let '(p', data) := skip_header p columns (Rows rs) in
      (p', inr (List.map (row_object columns) data))
  end.

(** Modelled from the spec: [rowParser] "is invoked once per row in page
    order", and the first exception it raises ends the conversion. *)
Fixpoint map_rows {Err T : Type} (rowParser : ParsedRow -> Err + T) (rs : list ParsedRow)
  : Err + list T :=
  match rs with
  | [] => inr []
  | r :: rs' =>
      match rowParser r with
      | inl e => inl e
      | inr t =>
          match map_rows rowParser rs' with
          | inl e => inl e
          | inr ts => inr (t :: ts)
          end
      end
  end.

(** Modelled from the spec: [parseResultSetWith(resultSet, rowParser)], the
    rows of [parseResultSet] converted by [rowParser]. *)
Definition spec_parseResultSetWith {Err : Type} (T : Type) (p : SpecParser)
    (resultSet : option ResultSet) (rowParser : ParsedRow -> Err + T)
  : SpecParser * (Err + list T) :=
  let '(p', r) := spec_parseResultSet (Err := Err) p resultSet in
  (p', match r with
       | inl e => inl e
       | inr rs => map_rows rowParser rs
       end).

(** ** Test doubles, after the repository's test-suite *)

(** A row object is the list of its own properties, in the order of
    [Object.keys]; [row_get r col] is the own property [col] of [r], if it
    has one. *)
Fixpoint row_get (r : ParsedRow) (col : string) : option (option string) :=
  match r with
  | [] => None
  | (k, v) :: r' => if String.eqb k col then Some v else row_get r' col
  end.

(** The names of the members of [Object.prototype], which every row object
    inherits. *)
Definition Object_prototype_members : list string :=
  [ "constructor"; "__defineGetter__"; "__defineSetter__"; "hasOwnProperty";
    "__lookupGetter__"; "__lookupSetter__"; "isPrototypeOf";
    "propertyIsEnumerable"; "toString"; "valueOf"; "__proto__";
    "toLocaleString" ].

Definition inherited (col : string) : bool :=
  List.existsb (String.eqb col) Object_prototype_members.

(** [r[col] ?? undefined]: the own property if there is one, [null] turned
    into [undefined]; else what the row inherits under that name; else
    [undefined]. *)
Definition index_or_undefined (r : ParsedRow) (col : string) : CellValue :=
  match row_get r col with
  | Some (Some s) => CellString s
  | Some None => CellUndefined
  | None => if inherited col then CellInherited col else CellUndefined
  end.

(** [createMockResultSet(rows)] *)
Definition createMockResultSet (rs : list ParsedRow) : ResultSet :=
  match rs with
  | [] => {| ResultSetMetadata := []; Rows := [] |}
  | r0 :: _ =>
      let columns := List.map (@Datatypes.fst string (option string)) r0 in
      {| ResultSetMetadata :=
           List.map (fun name => {| Name := name; Type_ := "varchar" |}) columns;
         Rows :=
           List.map
             (fun r =>
                {| Data :=
                     List.map
                       (fun col => {| VarCharValue := index_or_undefined r col |})
                       columns |})
             rs |}
  end.

(** A page handed to [createMockSend]. *)
Record MockPage : Type :=
  { mock_rows : list ParsedRow;
    mock_nextToken : option string }.

(** The row of column names [createMockSend] puts before the first page:
    [Object.keys(page.rows[0] ?? {})] reduced by [acc[col] = col] from [{}].
    The assignment [acc['__proto__'] = '__proto__'] goes to the setter of
    [Object.prototype], which ignores a string, and makes no property. *)
Definition headerRow (page : MockPage) : ParsedRow :=
  match mock_rows page with
  | [] => []
  | r0 :: _ =>
      List.map (fun col => (col, Some col))
        (List.filter (fun col => negb (String.eqb col "__proto__"))
           (List.map (@Datatypes.fst string (option string)) r0))
  end.

Definition mock_response (isFirstPage : bool) (page : MockPage)
  : GetQueryResultsCommandOutput :=
  let allRows := if isFirstPage then headerRow page :: mock_rows page else mock_rows page in
  {| ResultSet_ := Some (createMockResultSet allRows);
     NextToken := mock_nextToken page |}.

(** The state of a scripted client: the answers it has still to give, each
    a response or a rejection. *)
Definition Script : Type := list (string + GetQueryResultsCommandOutput).

(** [createMockSend(pages)]: the answer to call number [callIndex] is made of
    [pages[callIndex]], whatever the request; only the first carries the
    header row. *)
Definition createMockSend (pages : list MockPage) : Script :=
  match pages with
  | [] => []
  | page :: pages' =>
      inr (mock_response true page) :: List.map (fun q => inr (mock_response false q)) pages'
  end.

(** A call to the scripted client; past the script it answers with an empty
    last page, as [createMockSend] does when [pages[callIndex]] is missing. *)
Definition send_script (s : Script) (input : GetQueryResultsCommandInput)
  : Script * (string + GetQueryResultsCommandOutput) :=
  match s with
  | [] => ([], inr {| ResultSet_ := Some (createMockResultSet []); NextToken := None |})
  | answer :: s' => (s', answer)
  end.

(** The pager among its test doubles. *)
Definition test_doubles : Collaborators :=
  {| Error := string;
     AthenaQueryResultParser := SpecParser;
     new_AthenaQueryResultParser := new_SpecParser;
     parseResultSet := spec_parseResultSet (Err := string);
     parseResultSetWith := @spec_parseResultSetWith string;
     AthenaClient := Script;
     send := send_script |}.

(** ** Scenarios, after the test-suite *)

(** A pager built with default options in front of a scripted client,
    nothing observed yet. *)
Definition fresh_world {Y : Type} (script : Script) : @World test_doubles Y :=
  {| client := (script : @AthenaClient test_doubles);
     this := new_AthenaQueryResultPager
               {| opt_maxResults := None; opt_queryResultType := None |};
     log := [] |}.

(** A world of the pager among its test doubles, field by field. *)
Definition test_world {Y : Type} (script : Script) (o : RequiredPagerOptions)
    (p : SpecParser) (l : list (Observed Y)) : @World test_doubles Y :=
  {| client := (script : @AthenaClient test_doubles);
     this := {| options := o; parser := (p : @AthenaQueryResultParser test_doubles) |};
     log := l |}.

Definition default_options : RequiredPagerOptions :=
  {| maxResults := 1000; queryResultType := "DATA_ROWS" |}.

(** What the parser makes of a page of [createMockSend]. *)
Definition exchange_of (isFirstPage : bool) (page : MockPage) : Exchange ParsedRow :=
  (mock_response isFirstPage page, mock_rows page).

(** 'yields multiple pages until nextToken is undefined' *)
Definition page_x1 : MockPage :=
  {| mock_rows := [[("x", Some "1")]]; mock_nextToken := Some "t2" |}.
Definition page_x2 : MockPage :=
  {| mock_rows := [[("x", Some "2")]]; mock_nextToken := Some "t3" |}.
Definition page_x3 : MockPage :=
  {| mock_rows := [[("x", Some "3")]]; mock_nextToken := None |}.
Definition three_pages : list MockPage := [page_x1; page_x2; page_x3].

(** Two pages, the first with the empty string for a token. *)
Definition page_empty_token : MockPage :=
  {| mock_rows := [[("x", Some "1")]]; mock_nextToken := Some "" |}.
Definition empty_token_pages : list MockPage := [page_empty_token; page_x3].

(** Three pages, the second with the empty string for a token. *)
Definition page_x2_empty_token : MockPage :=
  {| mock_rows := [[("x", Some "2")]]; mock_nextToken := Some "" |}.
Definition empty_token_in_the_middle : list MockPage :=
  [page_x1; page_x2_empty_token; page_x3].

(** The row parser of the tests of [iteratePagesWith] and [iterateRows]:
    [(row) => ({ id: String(row.id ?? '') })], an item being its [id]. *)
Definition item_of_row : @RowParser test_doubles string :=
  fun row : ParsedRow =>
    inr (match row_get row "id" with
         | Some (Some s) => s
         | _ => ""
         end).

(** One page of one item, with the empty string for a token. *)
Definition page_id1_empty_token : MockPage :=
  {| mock_rows := [[("id", Some "1")]]; mock_nextToken := Some "" |}.

(** A pager built with the given options in front of a scripted client. *)
Definition world_with_options {Y : Type} (opts : PagerOptions) (script : Script)
  : @World test_doubles Y :=
  {| client := (script : @AthenaClient test_doubles);
     this := new_AthenaQueryResultPager opts;
     log := [] |}.

(** 'calls GetQueryResults with queryExecutionId and nextToken' *)
Definition page_id1_name_a : MockPage :=
  {| mock_rows := [[("id", Some "1"); ("name", Some "a")]]; mock_nextToken := None |}.

(** A client that serves one page and then rejects. *)
Definition one_page_then_throttled : Script :=
  [inr (mock_response true page_x1); inl "ThrottlingException"].

(** A row parser that throws. *)
Definition throwing_row_parser : @RowParser test_doubles string :=
  fun _ : ParsedRow => inl "bad row".

(** 'recreates parser instance': the page of the second query, [exec-2],
    here the first page of its result, header row included. *)
Definition page_b2 : MockPage :=
  {| mock_rows := [[("b", Some "2")]]; mock_nextToken := None |}.

(** 'yields each row from all pages': two pages, of two rows and of one. *)
Definition page_id12 : MockPage :=
  {| mock_rows := [[("id", Some "1")]; [("id", Some "2")]]; mock_nextToken := Some "t2" |}.
Definition page_id3 : MockPage :=
  {| mock_rows := [[("id", Some "3")]]; mock_nextToken := None |}.
Definition pages_2_1 : list MockPage := [page_id12; page_id3].

(** ** Vocabulary of further statements *)

(** [o[key]] on an object literal: the first property of that name, or
    [undefined]. *)
Fixpoint js_get (o : JsObject) (key : string) : JsValue :=
  match o with
  | [] => JsUndefined
  | (k, v) :: o' => if String.eqb k key then v else js_get o' key
  end.

(** Whether a generator was left by falling off its end ([inr]) rather than
    by an exception ([inl]). *)
Definition ended_normally {A B : Type} (r : A + B) : bool :=
  match r with
  | inl _ => false
  | inr _ => true
  end.

Section Protocol.

Variable T : Type.
Variable queryExecutionId : string.
Variable m : Z.

(** [Paged tok l b]: [l] is what a page loop entered with the token [tok]
    can have added to the log when it ends, normally ([b = true]) or by an
    exception ([b = false]): requests and pages alternate, every request
    carries the query execution id, [m] and the token of the page before it,
    that token is truthy, and the log ends with a page whose token is falsy,
    or with the request that failed. *)
Inductive Paged : option string -> list (Observed (PageResult T)) -> bool -> Prop :=
| paged_failed tok :
    Paged tok [Fetched (request queryExecutionId tok m)] false
| paged_last tok page :
    truthy (prop_read (nextToken page)) = false ->
    Paged tok [Fetched (request queryExecutionId tok m); Yielded page] true
| paged_more tok page l b :
    truthy (prop_read (nextToken page)) = true ->
    Paged (prop_read (nextToken page)) l b ->
    Paged tok (Fetched (request queryExecutionId tok m) :: Yielded page :: l) b.

End Protocol.

(** A service that never runs out of pages: every answer is an empty result
    with the token ["more"].  The parser is the one modelled from the spec. *)
Definition endless_doubles : Collaborators :=
  {| Error := string;
     AthenaQueryResultParser := SpecParser;
     new_AthenaQueryResultParser := new_SpecParser;
     parseResultSet := spec_parseResultSet (Err := string);
     parseResultSetWith := @spec_parseResultSetWith string;
     AthenaClient := unit;
     send := fun (c : unit) (_ : GetQueryResultsCommandInput) =>
               (c, inr {| ResultSet_ := None; NextToken := Some "more" |}) |}.

Definition endless_world : @World endless_doubles (PageResult ParsedRow) :=
  {| client := (tt : @AthenaClient endless_doubles);
     this := new_AthenaQueryResultPager
               {| opt_maxResults := None; opt_queryResultType := None |};
     log := [] |}.

(** The answer of [createMockSend] to a call past its pages. *)
Definition empty_last_page : GetQueryResultsCommandOutput :=
  {| ResultSet_ := Some (createMockResultSet []); NextToken := None |}.

(** 'parses rows with custom row parser' *)
Definition page_alice_bob : MockPage :=
  {| mock_rows := [ [("id", Some "1"); ("name", Some "Alice")];
                    [("id", Some "2"); ("name", Some "Bob")] ];
     mock_nextToken := None |}.

(** Two pages without rows, then one with a row. *)
Definition page_no_rows_t2 : MockPage :=
  {| mock_rows := []; mock_nextToken := Some "t2" |}.
Definition page_no_rows : MockPage :=
  {| mock_rows := []; mock_nextToken := None |}.

(** A row parser that throws on the row whose [id] is ["2"]. *)
Definition item_unless_2 : @RowParser test_doubles string :=
  fun row : ParsedRow =>
    match row_get row "id" with
    | Some (Some "2") => inl "bad row 2"
    | Some (Some s) => inr s
    | _ => inr ""
    end.

(** A page of one row with more to come, then the page of two rows. *)
Definition page_id3_t2 : MockPage :=
  {| mock_rows := [[("id", Some "3")]]; mock_nextToken := Some "t2" |}.
Definition page_id12_last : MockPage :=
  {| mock_rows := [[("id", Some "1")]; [("id", Some "2")]]; mock_nextToken := None |}.
Definition pages_1_2 : list MockPage := [page_id3_t2; page_id12_last].

(** * Part II: the pager, proved *)

Section Runs.

Context {collaborators : Collaborators}.

(** One step of a run: split a bind, perform an event, pass a value on. *)
Ltac run_step :=
  first [ rewrite interp_state_ret
        | rewrite bind_ret_l
        | rewrite interp_state_bind
        | rewrite interp_state_trigger ];
  cbn [handle Datatypes.fst Datatypes.snd].

Lemma yields_of_app (Y : Type) (l1 l2 : list (Observed Y)) :
  yields_of (l1 ++ l2) = yields_of l1 ++ yields_of l2.
Proof.
  induction l1 as [| [input | y] l1 IH]; cbn; [reflexivity | assumption |].
  now rewrite IH.
Qed.

Lemma requests_of_app (Y : Type) (l1 l2 : list (Observed Y)) :
  requests_of (l1 ++ l2) = requests_of l1 ++ requests_of l2.
Proof.
  induction l1 as [| [input | y] l1 IH]; cbn; [reflexivity | | assumption].
  now rewrite IH.
Qed.

Lemma falsy_cases (v : option string) :
  truthy v = false -> v = None \/ v = Some "".
Proof.
  destruct v as [s |]; [| now left]. cbn.
  destruct (String.eqb_spec s ""); [subst; now right | discriminate].
Qed.

(** ** One page fetch *)

Lemma run_fetchPage (Y : Type) (queryExecutionId : string) (tok : option string)
    (w : World Y) :
  run (fetchPage queryExecutionId tok) w
  ≈ Ret (fetched parseResultSet queryExecutionId tok w).
Proof.
  unfold run, fetchPage, fetched, request.
  repeat run_step.
  destruct (send _ _) as [c [e | response]]; repeat run_step; [reflexivity|].
  destruct (parseResultSet _ _) as [p [e | rs]]; repeat run_step; reflexivity.
Qed.

Lemma run_fetchPageWith (Y T : Type) (queryExecutionId : string)
    (rowParser : RowParser T) (tok : option string) (w : World Y) :
  run (fetchPageWith queryExecutionId rowParser tok) w
  ≈ Ret (fetched (fun p rs => parseResultSetWith p rs rowParser)
                 queryExecutionId tok w).
Proof.
  unfold run, fetchPageWith, fetched, request.
  repeat run_step.
  destruct (send _ _) as [c [e | response]]; repeat run_step; [reflexivity|].
  destruct (parseResultSetWith _ _ _) as [p [e | rs]]; repeat run_step; reflexivity.
Qed.

Lemma prop_read_page_of (T : Type) (response : GetQueryResultsCommandOutput)
    (rs : list T) :
  prop_read (nextToken (page_of response rs)) = NextToken response.
Proof. cbn. now destruct (NextToken response). Qed.

(** ** The page loop *)

Lemma iteratePages_paging (queryExecutionId : string) :
  iteratePages queryExecutionId = paging (fetchPage queryExecutionId) None.
Proof. reflexivity. Qed.

Lemma iteratePagesWith_paging (T : Type) (queryExecutionId : string)
    (rowParser : RowParser T) :
  iteratePagesWith queryExecutionId rowParser
  = paging (fetchPageWith queryExecutionId rowParser) None.
Proof. reflexivity. Qed.

Lemma run_paging (T : Type)
    (fetch : option string -> itree (pagerE (PageResult T)) (Error + PageResult T))
    (outcome : option string -> World (PageResult T)
               -> World (PageResult T) * (Error + PageResult T))
    (Hfetch : forall tok w, run (fetch tok) w ≈ Ret (outcome tok w))
    (tok : option string) (w : World (PageResult T)) :
  run (paging fetch tok) w
  ≈ turn (outcome tok w) (fun tok' w' => run (paging fetch tok') w').
Proof.
  unfold run at 1, paging at 1. rewrite unfold_iter.
  rewrite bind_bind, interp_state_bind.
  fold (run (fetch tok) w). rewrite Hfetch, bind_ret_l. cbn [Datatypes.fst Datatypes.snd].
  unfold turn. destruct (outcome tok w) as [w1 [e | page]]; cbn [Datatypes.fst Datatypes.snd].
  - repeat run_step. reflexivity.
  - rewrite bind_bind. do 3 run_step.
    destruct (truthy (prop_read (nextToken page))); repeat run_step.
    + rewrite interp_state_tau, tau_eutt. reflexivity.
    + reflexivity.
Qed.

(** The loop, run, is the iteration of its step. *)
Lemma run_paging_iter (T : Type)
    (fetch : option string -> itree (pagerE (PageResult T)) (Error + PageResult T))
    (outcome : option string -> World (PageResult T)
               -> World (PageResult T) * (Error + PageResult T))
    (Hfetch : forall tok w, run (fetch tok) w ≈ Ret (outcome tok w))
    (tok : option string) (w : World (PageResult T)) :
  run (paging fetch tok) w
  ≈ ITree.iter (fun st => Ret (paging_step outcome st)) (w, tok).
Proof.
  unfold run, paging.
  rewrite (interp_state_iter'_eutt handle _
             (fun tok w =>
                Ret (match paging_step outcome (w, tok) with
                     | inl (w', tok') => (w', inl tok')
                     | inr (w', r) => (w', inr r)
                     end))).
  - unfold Basics.iter, MonadIter_stateT0, Basics.iter, MonadIter_itree.
    apply (@eutt_iter' _ _ _ _ _ eq eq); [| reflexivity].
    intros [w1 tok1] ? <-. cbn [Datatypes.fst Datatypes.snd].
    unfold Monad.bind, Monad.ret, Monad_itree. rewrite bind_ret_l. apply eqit_Ret.
    destruct (paging_step outcome (w1, tok1)) as [[w2 tok2] | [w2 r]];
      constructor; reflexivity.
  - intros tok1 w1. rewrite interp_state_bind.
    fold (run (fetch tok1) w1). rewrite Hfetch, bind_ret_l.
    unfold paging_step. cbn [Datatypes.fst Datatypes.snd].
    destruct (outcome tok1 w1) as [w2 [e | page]]; cbn [Datatypes.fst Datatypes.snd].
    + repeat run_step. reflexivity.
    + do 3 run_step.
      destruct (truthy (prop_read (nextToken page))); repeat run_step; reflexivity.
Qed.

(** What every step keeps, every run that ends has kept. *)
Lemma run_paging_invariant (T : Type)
    (fetch : option string -> itree (pagerE (PageResult T)) (Error + PageResult T))
    (outcome : option string -> World (PageResult T)
               -> World (PageResult T) * (Error + PageResult T))
    (Hfetch : forall tok w, run (fetch tok) w ≈ Ret (outcome tok w))
    (Inv : World (PageResult T) -> Prop)
    (Hstep : forall tok w, Inv w ->
               match paging_step outcome (w, tok) with
               | inl (w', _) => Inv w'
               | inr (w', _) => Inv w'
               end)
    (tok : option string) (w w' : World (PageResult T)) (r : Error + unit) :
  Inv w ->
  run (paging fetch tok) w ≈ Ret (w', r) ->
  Inv w'.
Proof.
  intros Hw Hrun.
  assert (Hpost :
    has_post (E := void1) (ITree.iter (fun st => Ret (paging_step outcome st)) (w, tok))
             (fun x : World (PageResult T) * (Error + unit) => Inv (Datatypes.fst x))).
  { apply has_post_iter_strong
      with (Inv := fun st : World (PageResult T) * option string => Inv (Datatypes.fst st));
      [| exact Hw].
    intros [w1 tok1] H1. unfold has_post. apply eqit_Ret.
    specialize (Hstep tok1 w1 H1).
    destruct (paging_step outcome (w1, tok1)) as [[w2 tok2] | [w2 r2]]; cbn; exact Hstep. }
  unfold has_post in Hpost.
  rewrite <- (run_paging_iter _ _ Hfetch) in Hpost. rewrite Hrun in Hpost.
  apply eqit_inv_Ret in Hpost. exact Hpost.
Qed.

Section ServedRuns.

Variable T : Type.
Variable parse :
  AthenaQueryResultParser -> option ResultSet ->
  AthenaQueryResultParser * (Error + list T).
Variable queryExecutionId : string.
Variable m : Z.
Variable fetch :
  option string -> itree (pagerE (PageResult T)) (Error + PageResult T).
Hypothesis Hfetch :
  forall tok w, run (fetch tok) w ≈ Ret (fetched parse queryExecutionId tok w).

Lemma run_chain c p tok xs c' p' :
  Chain parse queryExecutionId m truthy c p tok xs c' p' ->
  forall w : World (PageResult T),
    client w = c -> parser (this w) = p -> maxResults (options (this w)) = m ->
    run (paging fetch tok) w
    ≈ Ret (world_after queryExecutionId m w tok xs [] c' p', inr tt).
Proof.
  induction 1 as [c p tok response rs c1 p1 Hs Hp Hm
                 | c p tok response rs c1 p1 xs c' p' Hs Hp Hm _ IH];
    intros w Hc Hpw Hmw.
  - rewrite (run_paging _ _ Hfetch). unfold fetched.
    rewrite Hc, Hpw, Hmw, Hs, Hp. cbn [turn].
    rewrite prop_read_page_of, Hm.
    unfold world_after, yielded, with_parser, sent. cbn.
    rewrite <- app_assoc. reflexivity.
  - rewrite (run_paging _ _ Hfetch). unfold fetched.
    rewrite Hc, Hpw, Hmw, Hs, Hp. cbn [turn].
    rewrite prop_read_page_of, Hm.
    rewrite IH by (cbn; auto).
    unfold world_after, yielded, with_parser, sent. cbn.
    rewrite <- !app_assoc. reflexivity.
Qed.

Lemma run_broken c p tok xs e c' p' :
  Broken parse queryExecutionId m truthy c p tok xs e c' p' ->
  forall w : World (PageResult T),
    client w = c -> parser (this w) = p -> maxResults (options (this w)) = m ->
    run (paging fetch tok) w
    ≈ Ret (world_after queryExecutionId m w tok xs
             [Fetched (request queryExecutionId (chain_token tok xs) m)] c' p',
           inl e).
Proof.
  induction 1 as [c p tok e c1 Hs
                 | c p tok response e c1 p1 Hs Hp
                 | c p tok response rs c1 p1 xs e c' p' Hs Hp Hm _ IH];
    intros w Hc Hpw Hmw.
  - rewrite (run_paging _ _ Hfetch). unfold fetched.
    rewrite Hc, Hmw, Hs. cbn [turn].
    unfold world_after, sent. cbn. rewrite <- Hpw.
    destruct w as [c0 [o0 p0] l0]. reflexivity.
  - rewrite (run_paging _ _ Hfetch). unfold fetched.
    rewrite Hc, Hpw, Hmw, Hs, Hp. cbn [turn].
    unfold world_after, with_parser, sent. cbn. reflexivity.
  - rewrite (run_paging _ _ Hfetch). unfold fetched.
    rewrite Hc, Hpw, Hmw, Hs, Hp. cbn [turn].
    rewrite prop_read_page_of, Hm.
    rewrite IH by (cbn; auto).
    unfold world_after, yielded, with_parser, sent. cbn.
    rewrite <- !app_assoc. reflexivity.
Qed.

Lemma yields_of_chain_log tok xs :
  yields_of (chain_log queryExecutionId m tok xs) = List.map (@exchange_page T) xs.
Proof.
  revert tok. induction xs as [| x xs IH]; intros tok; cbn; [reflexivity|].
  now rewrite IH.
Qed.

Lemma length_requests_of_chain_log tok (xs : list (Exchange T)) :
  length (requests_of (chain_log queryExecutionId m tok xs)) = length xs.
Proof.
  revert tok. induction xs as [| x xs IH]; intros tok; cbn; [reflexivity|].
  now rewrite IH.
Qed.

End ServedRuns.

End Runs.

(** ** The static predicate *)

(** C5.  For every Page Result [p] of any row type [T], with or without
    rows, [hasNextPage p] is true if and only if the continuation token of
    [p] is present, that is, the property holds a string: it is false exactly
    when the property is missing from the object or holds the empty marker
    [undefined]. *)
Theorem C5_hasNextPage_iff_token_present (T : Type) (p : PageResult T) :
  (hasNextPage p = true <-> exists s : string, nextToken p = PropValue s)
  /\ (hasNextPage p = false <->
      nextToken p = PropMissing \/ nextToken p = PropUndefined).
Proof.
  unfold hasNextPage. destruct (nextToken p) as [| | s]; cbn; split; split;
    try discriminate; try reflexivity; auto.
  - intros [s H]; discriminate.
  - intros [s H]; discriminate.
  - exists s; reflexivity.
  - intros [H | H]; discriminate.
Qed.

(** ** Chains of pages *)

Section Chains.

Context {collaborators : Collaborators}.

Variable T : Type.
Variable parse :
  AthenaQueryResultParser -> option ResultSet ->
  AthenaQueryResultParser * (Error + list T).
Variable queryExecutionId : string.
Variable m : Z.

(** A chain whose tokens are present and non-empty is a chain for the loop
    test, which goes on exactly on such tokens. *)
Lemma chain_present_truthy c p tok (xs : list (Exchange T)) c' p' :
  Chain parse queryExecutionId m present c p tok xs c' p' ->
  Forall (fun x => exchange_token x <> Some "") xs ->
  Chain parse queryExecutionId m truthy c p tok xs c' p'.
Proof.
  induction 1 as [c p tok response rs c1 p1 Hs Hp Hm
                 | c p tok response rs c1 p1 xs c' p' Hs Hp Hm _ IH];
    intros Hne.
  - apply chain_last; auto.
    destruct (NextToken response); [discriminate | reflexivity].
  - inversion Hne as [| x xs' Hx Hxs]; subst.
    apply chain_link with (c1 := c1) (p1 := p1); auto.
    unfold exchange_token in Hx. cbn in Hx.
    destruct (NextToken response) as [t |]; [| discriminate].
    cbn. destruct (String.eqb_spec t ""); [subst; contradiction | reflexivity].
Qed.

(** In a chain for the loop test, the token of the last page is falsy and
    the tokens of the pages before it are truthy. *)
Lemma chain_tokens more c p tok (xs : list (Exchange T)) c' p' :
  Chain parse queryExecutionId m more c p tok xs c' p' ->
  exists ys z,
    xs = ys ++ [z]
    /\ Forall (fun x => more (exchange_token x) = true) ys
    /\ more (exchange_token z) = false.
Proof.
  induction 1 as [c p tok response rs c1 p1 Hs Hp Hm
                 | c p tok response rs c1 p1 xs c' p' Hs Hp Hm _ IH].
  - exists [], (response, rs). repeat split; auto.
  - destruct IH as (ys & z & -> & Hys & Hz).
    exists ((response, rs) :: ys), z. repeat split; auto.
Qed.

(** The log of a chain alternates: the request for page [k] is entry [2k],
    page [k] itself is entry [2k+1]; so the request for page [k+1] comes
    after page [k] was yielded. *)
Lemma chain_log_nth (xs : list (Exchange T)) tok k x :
  nth_error xs k = Some x ->
  nth_error (chain_log queryExecutionId m tok xs) (2 * k)
  = Some (Fetched (request queryExecutionId (chain_token tok (firstn k xs)) m))
  /\ nth_error (chain_log queryExecutionId m tok xs) (2 * k + 1)
     = Some (Yielded (exchange_page x)).
Proof.
  revert tok k. induction xs as [| y xs IH]; intros tok k Hk.
  - destruct k; discriminate.
  - destruct k as [| k].
    + cbn in Hk. injection Hk as ->. cbn. auto.
    + cbn in Hk. destruct (IH (exchange_token y) k Hk) as [H1 H2].
      replace (2 * S k) with (S (S (2 * k))) by lia.
      replace (S (S (2 * k)) + 1) with (S (S (2 * k + 1))) by lia.
      cbn [chain_log nth_error firstn chain_token]. auto.
Qed.

Lemma chain_log_snoc (ys : list (Exchange T)) tok z :
  chain_log queryExecutionId m tok (ys ++ [z])
  = chain_log queryExecutionId m tok ys
      ++ [ Fetched (request queryExecutionId (chain_token tok ys) m);
           Yielded (exchange_page z) ].
Proof.
  revert tok. induction ys as [| y ys IH]; intros tok; cbn; [reflexivity|].
  now rewrite IH.
Qed.

End Chains.

(** ** The generators over a chain *)

Section Generators.

Context {collaborators : Collaborators}.

(** X16.  For every finite chain of N service pages in which every page
    but the last carries a non-empty continuation token leading to the next
    page and the last page's token is absent or the empty string,
    [iteratePages] ends normally having yielded exactly the N pages in
    continuation order and issued exactly N fetch requests; request and page
    alternate in the log, so the fetch for page [k+1] is issued only after
    page [k] has been yielded. *)
Theorem X16_iteratePages_yields_the_chain
    (w : World (PageResult ParsedRow)) (queryExecutionId : string)
    (xs : list (Exchange ParsedRow)) (c' : AthenaClient) (p' : AthenaQueryResultParser) :
  let m := maxResults (options (this w)) in
  let l := chain_log queryExecutionId m None xs in
  Chain parseResultSet queryExecutionId m truthy
        (client w) (parser (this w)) None xs c' p' ->
  run (iteratePages queryExecutionId) w
  ≈ Ret ({| client := c';
            this := {| options := options (this w); parser := p' |};
            log := log w ++ l |}, inr tt)
  /\ yields_of l = List.map (@exchange_page ParsedRow) xs
  /\ length (yields_of l) = length xs
  /\ length (requests_of l) = length xs
  /\ (forall k x, nth_error xs k = Some x ->
        nth_error l (2 * k)
        = Some (Fetched (request queryExecutionId (chain_token None (firstn k xs)) m))
        /\ nth_error l (2 * k + 1) = Some (Yielded (exchange_page x))).
Proof.
  intros m l Hchain.
  assert (Hrun := run_chain (fetchPage queryExecutionId)
                    (fun tok w => run_fetchPage queryExecutionId tok w)
                    Hchain w eq_refl eq_refl eq_refl).
  unfold world_after in Hrun. rewrite app_nil_r in Hrun.
  refine (conj _ (conj _ (conj _ (conj _ _)))).
  - rewrite iteratePages_paging. exact Hrun.
  - apply yields_of_chain_log.
  - unfold l. rewrite yields_of_chain_log. apply length_map.
  - apply length_requests_of_chain_log.
  - intros k x Hk. apply chain_log_nth; assumption.
Qed.

End Generators.

(** ** The generators over scripted clients *)

(** X16, at the three pages of the test 'yields multiple pages until
    nextToken is undefined'. *)
Lemma X16_witness :
  run (iteratePages "exec-1") (fresh_world (createMockSend three_pages))
  ≈ Ret (test_world [] default_options {| headerSeen := true |}
           [ Fetched (request "exec-1" None 1000);
             Yielded (exchange_page (exchange_of true page_x1));
             Fetched (request "exec-1" (Some "t2") 1000);
             Yielded (exchange_page (exchange_of false page_x2));
             Fetched (request "exec-1" (Some "t3") 1000);
             Yielded (exchange_page (exchange_of false page_x3)) ],
         inr tt).
Proof.
  refine (proj1 (@X16_iteratePages_yields_the_chain test_doubles
                   (fresh_world (createMockSend three_pages)) "exec-1"
                   [exchange_of true page_x1; exchange_of false page_x2;
                    exchange_of false page_x3]
                   [] {| headerSeen := true |} _)).
  eapply chain_link; [reflexivity | reflexivity | reflexivity |].
  eapply chain_link; [reflexivity | reflexivity | reflexivity |].
  eapply chain_last; reflexivity.
Defined.

(** C1, at the input on which the code fails it.  The claim: for every
    finite chain of N service pages in which page [i] carries a continuation
    token leading to page [i+1] and the last page's token is absent,
    [iteratePages] yields exactly N Page Results and issues exactly N fetch
    requests.  The two pages served here are such a chain, the token of the
    first being the empty string; [hasNextPage] says of the first page that
    there is a next one.  The code yields one page and sends one request:
    [while (nextToken)] takes the empty string for the end, where
    [hasNextPage] and the documentation of [nextToken] ("undefined if no more
    pages") know no end but [undefined]. *)
Theorem C1_empty_string_token_cuts_the_chain :
  let w := fresh_world (createMockSend empty_token_pages) in
  let xs := [exchange_of true page_empty_token; exchange_of false page_x3] in
  Chain (collaborators := test_doubles) parseResultSet "exec-1" 1000 present
        (client w) (parser (this w)) None xs [] {| headerSeen := true |}
  /\ hasNextPage (exchange_page (exchange_of true page_empty_token)) = true
  /\ run (iteratePages "exec-1") w
     ≈ Ret (test_world [inr (mock_response false page_x3)] default_options {| headerSeen := true |}
              [ Fetched (request "exec-1" None 1000);
                Yielded (exchange_page (exchange_of true page_empty_token)) ],
            inr tt)
  /\ ~ (exists w', run (iteratePages "exec-1") w ≈ Ret (w', inr tt)
                   /\ length (yields_of (log w')) = length xs).
Proof.
  intros w xs.
  assert (Hrun :
    run (iteratePages "exec-1") w
    ≈ Ret (test_world [inr (mock_response false page_x3)] default_options {| headerSeen := true |}
             [ Fetched (request "exec-1" None 1000);
               Yielded (exchange_page (exchange_of true page_empty_token)) ],
           inr tt)).
  { rewrite iteratePages_paging.
    refine (run_chain (collaborators := test_doubles) (fetchPage "exec-1")
              (fun tok w => run_fetchPage "exec-1" tok w)
              (xs := [exchange_of true page_empty_token]) _ w eq_refl eq_refl eq_refl).
    eapply chain_last; reflexivity. }
  refine (conj _ (conj eq_refl (conj Hrun _))).
  - eapply chain_link; [reflexivity | reflexivity | reflexivity |].
    eapply chain_last; reflexivity.
  - intros (w' & Hw' & Hlen). rewrite Hrun in Hw'.
    apply eutt_inv_Ret in Hw'. injection Hw' as <-. discriminate Hlen.
Qed.

Section Termination.

Context {collaborators : Collaborators}.

(** X17.  Over service pages of which one has a continuation token that is
    absent or the empty string, the sequence produced by [iteratePages] is
    finite and ends exactly with the first such page, after yielding it:
    every page before it has a non-empty token, and the last entries of the
    log are the request for that page and the page itself, so the test of
    its token came after the fetch and the yield. *)
Theorem X17_iteratePages_ends_with_first_falsy_token
    (w : World (PageResult ParsedRow)) (queryExecutionId : string)
    (xs : list (Exchange ParsedRow)) (c' : AthenaClient) (p' : AthenaQueryResultParser) :
  let m := maxResults (options (this w)) in
  Chain parseResultSet queryExecutionId m truthy
        (client w) (parser (this w)) None xs c' p' ->
  exists w' ys z,
    run (iteratePages queryExecutionId) w ≈ Ret (w', inr tt)
    /\ xs = ys ++ [z]
    /\ Forall (fun x => truthy (exchange_token x) = true) ys
    /\ (exchange_token z = None \/ exchange_token z = Some "")
    /\ yields_of (log w')
       = yields_of (log w) ++ List.map (@exchange_page ParsedRow) ys ++ [exchange_page z]
    /\ log w'
       = log w ++ chain_log queryExecutionId m None ys
           ++ [ Fetched (request queryExecutionId (chain_token None ys) m);
                Yielded (exchange_page z) ].
Proof.
  intros m Hchain.
  assert (Hrun := run_chain (fetchPage queryExecutionId)
                    (fun tok w => run_fetchPage queryExecutionId tok w)
                    Hchain w eq_refl eq_refl eq_refl).
  destruct (chain_tokens Hchain) as (ys & z & -> & Hys & Hz).
  eexists _, ys, z. refine (conj _ (conj eq_refl (conj Hys (conj _ (conj _ _))))).
  - rewrite iteratePages_paging. exact Hrun.
  - now apply falsy_cases.
  - cbn [world_after log]. rewrite app_nil_r, yields_of_app, yields_of_chain_log.
    now rewrite map_app.
  - cbn [world_after log]. rewrite app_nil_r. f_equal.
    clear. generalize (@None string) as tok.
    induction ys as [| y ys IH]; intros tok; cbn; [reflexivity|].
    now rewrite IH.
Qed.

End Termination.

(** X17, at the three pages of the test 'yields multiple pages until
    nextToken is undefined'. *)
Lemma X17_witness :
  exists w' ys z,
    run (iteratePages "exec-1") (fresh_world (createMockSend three_pages))
    ≈ Ret (w', inr tt)
    /\ [exchange_of true page_x1; exchange_of false page_x2; exchange_of false page_x3]
       = ys ++ [z]
    /\ Forall (fun x => truthy (exchange_token x) = true) ys
    /\ (exchange_token z = None \/ exchange_token z = Some "")
    /\ yields_of (log w')
       = [] ++ List.map (@exchange_page ParsedRow) ys ++ [exchange_page z]
    /\ log w'
       = [] ++ chain_log "exec-1" 1000 None ys
           ++ [ Fetched (request "exec-1" (chain_token None ys) 1000);
                Yielded (exchange_page z) ].
Proof.
  refine (@X17_iteratePages_ends_with_first_falsy_token test_doubles
            (fresh_world (createMockSend three_pages)) "exec-1"
            [exchange_of true page_x1; exchange_of false page_x2;
             exchange_of false page_x3]
            [] {| headerSeen := true |} _).
  eapply chain_link; [reflexivity | reflexivity | reflexivity |].
  eapply chain_link; [reflexivity | reflexivity | reflexivity |].
  eapply chain_last; reflexivity.
Defined.

(** C2, at the input on which the code fails it.  The claim: for every
    service page sequence in which some page's continuation token is absent,
    the sequence produced by [iteratePages] ends exactly with the first page
    whose continuation token is absent.  Of the three pages served here the
    first whose token is absent is the third; the token of the second is the
    empty string, and [hasNextPage] says of the second page that there is a
    next one.  The code ends with the second page and never asks for the
    third: [while (nextToken)] takes the empty string for the end, where
    [hasNextPage] and the documentation of [nextToken] ("undefined if no more
    pages") know no end but [undefined]. *)
Theorem C2_empty_string_token_ends_before_the_absent_one :
  let w := fresh_world (createMockSend empty_token_in_the_middle) in
  let x1 := exchange_of true page_x1 in
  let x2 := exchange_of false page_x2_empty_token in
  let x3 := exchange_of false page_x3 in
  Chain (collaborators := test_doubles) parseResultSet "exec-1" 1000 present
        (client w) (parser (this w)) None [x1; x2; x3] [] {| headerSeen := true |}
  /\ present (exchange_token x1) = true
  /\ present (exchange_token x2) = true
  /\ present (exchange_token x3) = false
  /\ run (iteratePages "exec-1") w
     ≈ Ret (test_world [inr (mock_response false page_x3)] default_options
              {| headerSeen := true |}
              [ Fetched (request "exec-1" None 1000);
                Yielded (exchange_page x1);
                Fetched (request "exec-1" (Some "t2") 1000);
                Yielded (exchange_page x2) ],
            inr tt)
  /\ hasNextPage (exchange_page x2) = true
  /\ ~ (exists w' l, run (iteratePages "exec-1") w ≈ Ret (w', inr tt)
                     /\ yields_of (log w') = l ++ [exchange_page x3]).
Proof.
  intros w x1 x2 x3.
  assert (Hrun :
    run (iteratePages "exec-1") w
    ≈ Ret (test_world [inr (mock_response false page_x3)] default_options
             {| headerSeen := true |}
             [ Fetched (request "exec-1" None 1000);
               Yielded (exchange_page x1);
               Fetched (request "exec-1" (Some "t2") 1000);
               Yielded (exchange_page x2) ],
           inr tt)).
  { rewrite iteratePages_paging.
    refine (run_chain (collaborators := test_doubles) (fetchPage "exec-1")
              (fun tok w => run_fetchPage "exec-1" tok w)
              (xs := [x1; x2]) _ w eq_refl eq_refl eq_refl).
    eapply chain_link; [reflexivity | reflexivity | reflexivity |].
    eapply chain_last; reflexivity. }
  refine (conj _ (conj eq_refl (conj eq_refl (conj eq_refl (conj Hrun (conj eq_refl _)))))).
  - eapply chain_link; [reflexivity | reflexivity | reflexivity |].
    eapply chain_link; [reflexivity | reflexivity | reflexivity |].
    eapply chain_last; reflexivity.
  - intros (w' & l & Hw' & Hl). rewrite Hrun in Hw'.
    apply eutt_inv_Ret in Hw'. injection Hw' as <-. cbn in Hl.
    destruct l as [| a [| b l]]; cbn in Hl.
    + discriminate Hl.
    + injection Hl as _ H. discriminate H.
    + injection Hl as _ _ H. destruct l; discriminate H.
Qed.

(** ** The first page *)

Section FirstPage.

Context {collaborators : Collaborators}.

(** A step of the loop only adds to the log. *)
Lemma paging_step_extends_log (T : Type)
    (parse : AthenaQueryResultParser -> option ResultSet ->
             AthenaQueryResultParser * (Error + list T))
    (queryExecutionId : string) (l0 : list (Observed (PageResult T)))
    (tok : option string) (w : World (PageResult T)) :
  (exists l, log w = l0 ++ l) ->
  match paging_step (fetched parse queryExecutionId) (w, tok) with
  | inl (w', _) => exists l, log w' = l0 ++ l
  | inr (w', _) => exists l, log w' = l0 ++ l
  end.
Proof.
  intros [l Hl]. unfold paging_step, fetched. cbn [Datatypes.fst Datatypes.snd].
  destruct (send _ _) as [c [e | response]].
  - cbn. rewrite Hl, <- app_assoc. eauto.
  - destruct (parse _ _) as [p [e | rs]].
    + cbn. rewrite Hl, <- app_assoc. eauto.
    + destruct (truthy _); cbn; rewrite Hl, <- !app_assoc; eauto.
Qed.

(** One step of a run with the consumer in sight. *)
Ltac see_step :=
  first [ rewrite interp_state_ret
        | rewrite bind_ret_l
        | rewrite interp_state_bind
        | rewrite interp_state_trigger ];
  cbn [handle_visibly Datatypes.fst Datatypes.snd].

Lemma run_visibly_fetchPage (Y : Type) (queryExecutionId : string) (tok : option string)
    (w : World Y) :
  run_visibly (fetchPage queryExecutionId tok) w
  ≈ Ret (fetched parseResultSet queryExecutionId tok w).
Proof.
  unfold run_visibly, fetchPage, fetched, request.
  repeat see_step.
  destruct (send _ _) as [c [e | response]]; repeat see_step; [reflexivity|].
  destruct (parseResultSet _ _) as [p [e | rs]]; repeat see_step; reflexivity.
Qed.

(** One turn of the page loop with the consumer in sight: the fetch, then,
    unless it threw, the page handed to the consumer, and only then the test
    of its token. *)
Lemma run_visibly_paging (T : Type)
    (fetch : option string -> itree (pagerE (PageResult T)) (Error + PageResult T))
    (outcome : option string -> World (PageResult T)
               -> World (PageResult T) * (Error + PageResult T))
    (Hfetch : forall tok w, run_visibly (fetch tok) w ≈ Ret (outcome tok w))
    (tok : option string) (w : World (PageResult T)) :
  run_visibly (paging fetch tok) w
  ≈ match outcome tok w with
    | (w1, inl e) => Ret (w1, inl e)
    | (w1, inr page) =>
        Vis (Hand page)
            (fun _ =>
               if truthy (prop_read (nextToken page))
               then run_visibly (paging fetch (prop_read (nextToken page)))
                                (yielded page w1)
               else Ret (yielded page w1, inr tt))
    end.
Proof.
  unfold run_visibly at 1, paging at 1. rewrite unfold_iter.
  rewrite bind_bind, interp_state_bind.
  fold (run_visibly (fetch tok) w). rewrite Hfetch, bind_ret_l.
  cbn [Datatypes.fst Datatypes.snd].
  destruct (outcome tok w) as [w1 [e | page]]; cbn [Datatypes.fst Datatypes.snd].
  - repeat see_step. reflexivity.
  - rewrite bind_bind. do 2 see_step.
    rewrite bind_bind, bind_trigger. apply eqit_Vis. intros [].
    rewrite bind_ret_l. cbn [Datatypes.fst Datatypes.snd].
    destruct (truthy (prop_read (nextToken page))); repeat see_step.
    + rewrite interp_state_tau, tau_eutt. reflexivity.
    + reflexivity.
Qed.

(** Served by a consumer that takes every element, the run with the
    consumer in sight is the run. *)
Lemma run_visibly_take_all (Y R : Type) (t : itree (pagerE Y) R) (w : World Y) :
  interp take_all (run_visibly t w) ≈ run t w.
Proof.
  revert t w. einit. ecofix CIH. intros t w.
  unfold run_visibly, run. rewrite !unfold_interp_state.
  destruct (observe t) as [r | t' | X e k]; cbn [_interp_state].
  - rewrite interp_ret. eret.
  - rewrite interp_tau. etau.
  - destruct e as [input | | p | y]; cbn [handle handle_visibly].
    + destruct (send (client w) input) as [c r].
      rewrite !bind_ret_l, interp_tau. etau.
    + rewrite !bind_ret_l, interp_tau. etau.
    + rewrite !bind_ret_l, interp_tau. etau.
    + rewrite bind_bind, interp_bind, interp_trigger. cbn [take_all].
      rewrite !bind_ret_l, interp_tau. etau.
Qed.

(** C3.  [iteratePages] always yields at least one page.  When the service
    returns a single empty page (no rows, no continuation token), the
    iteration yields exactly one Page Result, with [rows = []],
    [rowCount = 0] and the continuation token absent, and ends.  In general,
    in every world and whether the run ends or not: the run first sends the
    request without token; if that fetch throws, the run ends there with the
    exception; otherwise its very next step is to hand the page fetched to
    the consumer, and only after that is the token of the page tested.  So a
    run never goes past its first fetch, to its end or into further fetches,
    without having yielded a page.  Of the runs that end, each starts its log
    with the request, and each that ends normally has yielded a page. *)
Theorem C3_iteratePages_yields_at_least_one_page
    (w : World (PageResult ParsedRow)) (queryExecutionId : string) :
  let m := maxResults (options (this w)) in
  let first_request := request queryExecutionId None m in
  (forall response c1 p1,
      send (client w) first_request = (c1, inr response) ->
      NextToken response = None ->
      parseResultSet (parser (this w)) (ResultSet_ response) = (p1, inr []) ->
      run (iteratePages queryExecutionId) w
      ≈ Ret ({| client := c1;
                this := {| options := options (this w); parser := p1 |};
                log := log w ++ [ Fetched first_request;
                                  Yielded {| rows := [];
                                             nextToken := PropUndefined;
                                             rowCount := 0 |} ] |},
             inr tt))
  /\ (forall w' r,
         run (iteratePages queryExecutionId) w ≈ Ret (w', r) ->
         exists l,
           log w' = log w ++ Fetched first_request :: l
           /\ (r = inr tt -> yields_of l <> []))
  /\ (exists w1 r1,
         fetched parseResultSet queryExecutionId None w = (w1, r1)
         /\ log w1 = log w ++ [Fetched first_request]
         /\ run_visibly (iteratePages queryExecutionId) w
            ≈ match r1 with
              | inl e => Ret (w1, inl e)
              | inr page =>
                  Vis (Hand page)
                      (fun _ =>
                         if truthy (prop_read (nextToken page))
                         then run_visibly
                                (paging (fetchPage queryExecutionId)
                                        (prop_read (nextToken page)))
                                (yielded page w1)
                         else Ret (yielded page w1, inr tt))
              end)
  /\ interp take_all (run_visibly (iteratePages queryExecutionId) w)
     ≈ run (iteratePages queryExecutionId) w.
Proof.
  intros m first_request. refine (conj _ (conj _ (conj _ _))).
  - intros response c1 p1 Hs Htok Hp.
    assert (Hchain :
      Chain parseResultSet queryExecutionId m truthy
            (client w) (parser (this w)) None [(response, [])] c1 p1).
    { apply chain_last; auto. now rewrite Htok. }
    assert (Hrun := run_chain (fetchPage queryExecutionId)
                      (fun tok w => run_fetchPage queryExecutionId tok w)
                      Hchain w eq_refl eq_refl eq_refl).
    rewrite iteratePages_paging, Hrun.
    unfold world_after. cbn [chain_log]. unfold exchange_page, page_of.
    cbn [Datatypes.fst Datatypes.snd]. rewrite Htok. reflexivity.
  - intros w' r Hrun.
    rewrite iteratePages_paging in Hrun.
    rewrite (run_paging _ _ (fun tok w => run_fetchPage queryExecutionId tok w)) in Hrun.
    unfold fetched in Hrun. fold m in Hrun. fold first_request in Hrun.
    destruct (send (client w) first_request) as [c [e | response]].
    + cbn [turn] in Hrun. apply eutt_inv_Ret in Hrun. injection Hrun as <- <-.
      exists []. split; [reflexivity | discriminate].
    + destruct (parseResultSet (parser (this w)) (ResultSet_ response)) as [p [e | rs]].
      * cbn [turn] in Hrun. apply eutt_inv_Ret in Hrun. injection Hrun as <- <-.
        exists []. split; [reflexivity | discriminate].
      * cbn [turn] in Hrun.
        destruct (truthy (prop_read (nextToken (page_of response rs)))).
        -- apply (run_paging_invariant _ _
                    (fun tok w => run_fetchPage queryExecutionId tok w)
                    (fun w'' => exists l,
                         log w'' = (log w ++ [ Fetched first_request;
                                               Yielded (page_of response rs) ]) ++ l))
             in Hrun.
           ++ destruct Hrun as [l Hl]. exists (Yielded (page_of response rs) :: l).
              rewrite Hl, <- app_assoc. split; [reflexivity | discriminate].
           ++ intros tok1 w1. apply paging_step_extends_log.
           ++ exists []. cbn. now rewrite <- !app_assoc, app_nil_r.
        -- apply eutt_inv_Ret in Hrun. injection Hrun as <- _.
           exists [Yielded (page_of response rs)]. cbn. rewrite <- app_assoc.
           split; [reflexivity | discriminate].
  - destruct (fetched parseResultSet queryExecutionId None w) as [w1 r1] eqn:Hf.
    exists w1, r1. refine (conj eq_refl (conj _ _)).
    + unfold fetched in Hf. fold m in Hf. fold first_request in Hf.
      destruct (send (client w) first_request) as [c [e | response]].
      * injection Hf as <- _. reflexivity.
      * destruct (parseResultSet (parser (this w)) (ResultSet_ response))
          as [p [e | rs]]; injection Hf as <- _; reflexivity.
    + rewrite iteratePages_paging.
      rewrite (run_visibly_paging _ _
                 (fun tok w => run_visibly_fetchPage queryExecutionId tok w)).
      rewrite Hf. destruct r1; reflexivity.
  - apply run_visibly_take_all.
Qed.

End FirstPage.

(** C3, at the reply of [createMockSend] to a call past its pages: an empty
    result set and no token. *)
Lemma C3_witness :
  run (iteratePages "exec-1") (fresh_world (createMockSend []))
  ≈ Ret (test_world [] default_options new_SpecParser
           [ Fetched (request "exec-1" None 1000);
             Yielded {| rows := []; nextToken := PropUndefined; rowCount := 0 |} ],
         inr tt).
Proof.
  refine (proj1 (@C3_iteratePages_yields_at_least_one_page test_doubles
                   (fresh_world (createMockSend [])) "exec-1")
            {| ResultSet_ := Some (createMockResultSet []); NextToken := None |}
            [] new_SpecParser _ _ _); reflexivity.
Defined.

(** ** Consistency of the row count *)

Section RowCount.

Context {collaborators : Collaborators}.

Lemma produces_mon (Y R : Type) (P : Y -> Prop) (Q : R -> Prop) :
  monotone1 (produces_ P Q).
Proof.
  intros t r r' H LE. unfold produces_ in *.
  destruct H; constructor; auto.
Qed.
Hint Resolve produces_mon : paco.

Lemma page_of_consistent (T : Type) (response : GetQueryResultsCommandOutput)
    (rs : list T) :
  consistent (page_of response rs).
Proof. reflexivity. Qed.

Lemma produces_Ret_intro (Y R : Type) (P : Y -> Prop) (Q : R -> Prop) (x : R) :
  Q x -> produces P Q (Ret x).
Proof. intros Hx. pfold. red. cbn. now constructor. Qed.

Lemma produces_trigger (Y X : Type) (P : Y -> Prop) (e : pagerE Y X) :
  match e with
  | Yield y => P y
  | _ => True
  end ->
  produces P (fun _ : X => True) (ITree.trigger e).
Proof.
  intros He. pfold. red. cbn.
  destruct e; constructor; auto; intros a; left; apply produces_Ret_intro; exact I.
Qed.

Lemma produces_bind (Y R S : Type) (P : Y -> Prop) (Q1 : R -> Prop) (Q : S -> Prop)
    (k : R -> itree (pagerE Y) S) :
  (forall x, Q1 x -> produces P Q (k x)) ->
  forall t, produces P Q1 t -> produces P Q (ITree.bind t k).
Proof.
  intros Hk. pcofix CIH. intros t Ht.
  punfold Ht. red in Ht. pfold. red. rewrite observe_bind.
  destruct Ht as [x Hx | t0 Ht0 | input k0 Hk0 | k0 Hk0 | p0 k0 Hk0 | y k0 Hy Hk0].
  - specialize (Hk x Hx). punfold Hk. red in Hk.
    eapply produces_mon; [exact Hk |].
    intros u [Hu | []]. left. eapply paco1_mon; [exact Hu | intros ? []].
  - cbn. constructor. right. apply CIH. now pclearbot.
  - cbn. constructor. intros a. right. apply CIH. specialize (Hk0 a). now pclearbot.
  - cbn. constructor. intros a. right. apply CIH. specialize (Hk0 a). now pclearbot.
  - cbn. constructor. intros a. right. apply CIH. specialize (Hk0 a). now pclearbot.
  - cbn. constructor; [exact Hy |].
    intros a. right. apply CIH. specialize (Hk0 a). now pclearbot.
Qed.

Lemma produces_iter (Y I R : Type) (P : Y -> Prop) (Q : R -> Prop)
    (body : I -> itree (pagerE Y) (I + R)) :
  (forall i, produces P (fun lr => match lr with inl _ => True | inr x => Q x end) (body i)) ->
  forall i, produces P Q (ITree.iter body i).
Proof.
  intros Hbody.
  assert (H : forall t u,
             produces P (fun lr => match lr with inl _ => True | inr x => Q x end) t ->
             observe u
             = observe (ITree.bind t (fun lr => match lr with
                                                | inl l => Tau (ITree.iter body l)
                                                | inr x => Ret x
                                                end)) ->
             produces P Q u).
  { pcofix CIH. intros t u Ht Hu.
    punfold Ht. red in Ht. pfold. red. rewrite Hu, observe_bind.
    destruct Ht as [[l | x] Hx | t0 Ht0 | input k0 Hk0 | k0 Hk0 | p0 k0 Hk0 | y k0 Hy Hk0].
    - cbn. constructor. right. apply CIH with (t := body l); [apply Hbody | reflexivity].
    - cbn. constructor. exact Hx.
    - cbn. constructor. right. apply CIH with (t := t0); [now pclearbot | reflexivity].
    - cbn. constructor. intros a. right.
      apply CIH with (t := k0 a); [specialize (Hk0 a); now pclearbot | reflexivity].
    - cbn. constructor. intros a. right.
      apply CIH with (t := k0 a); [specialize (Hk0 a); now pclearbot | reflexivity].
    - cbn. constructor. intros a. right.
      apply CIH with (t := k0 a); [specialize (Hk0 a); now pclearbot | reflexivity].
    - cbn. constructor; [exact Hy |]. intros a. right.
      apply CIH with (t := k0 a); [specialize (Hk0 a); now pclearbot | reflexivity]. }
  intros i. apply H with (t := body i); [apply Hbody | reflexivity].
Qed.

Lemma fetchPage_produces (Y : Type) (P : Y -> Prop)
    (queryExecutionId : string) (tok : option string) :
  produces P (@returns_consistent _ ParsedRow) (fetchPage queryExecutionId tok).
Proof.
  unfold fetchPage.
  eapply produces_bind; [| apply produces_trigger; exact I]. intros this0 _.
  eapply produces_bind; [| apply produces_trigger; exact I]. intros [e | response] _.
  { apply produces_Ret_intro. exact I. }
  eapply produces_bind; [| apply produces_trigger; exact I]. intros this1 _.
  destruct (parseResultSet (parser this1) (ResultSet_ response)) as [p r].
  eapply produces_bind; [| apply produces_trigger; exact I]. intros _ _.
  eapply produces_bind with (Q1 := fun _ => True); [| apply produces_Ret_intro; exact I].
  intros [e | rs] _; apply produces_Ret_intro; [exact I | reflexivity].
Qed.

Lemma fetchPageWith_produces (Y T : Type) (P : Y -> Prop)
    (queryExecutionId : string) (rowParser : RowParser T) (tok : option string) :
  produces P (@returns_consistent _ T) (fetchPageWith queryExecutionId rowParser tok).
Proof.
  unfold fetchPageWith.
  eapply produces_bind; [| apply produces_trigger; exact I]. intros this0 _.
  eapply produces_bind; [| apply produces_trigger; exact I]. intros [e | response] _.
  { apply produces_Ret_intro. exact I. }
  eapply produces_bind; [| apply produces_trigger; exact I]. intros this1 _.
  destruct (parseResultSetWith (parser this1) (ResultSet_ response) rowParser) as [p r].
  eapply produces_bind; [| apply produces_trigger; exact I]. intros _ _.
  eapply produces_bind with (Q1 := fun _ => True); [| apply produces_Ret_intro; exact I].
  intros [e | rs] _; apply produces_Ret_intro; [exact I | reflexivity].
Qed.

Lemma paging_produces (T : Type)
    (fetch : option string -> itree (pagerE (PageResult T)) (Error + PageResult T))
    (Hfetch : forall tok, produces (@consistent T) (@returns_consistent _ T) (fetch tok))
    (tok : option string) :
  produces (@consistent T) (fun _ : Error + unit => True) (paging fetch tok).
Proof.
  unfold paging. apply produces_iter. intros tok1.
  eapply produces_bind; [| apply Hfetch]. intros [e | page] Hpage.
  - apply produces_Ret_intro. exact I.
  - eapply produces_bind; [| apply produces_trigger; exact Hpage]. intros _ _.
    cbv zeta. destruct (truthy _); apply produces_Ret_intro; exact I.
Qed.

(** C4.  Every Page Result ever produced satisfies
    [rowCount == length(rows)]: whatever the service, the parser and the
    consumer do, a page returned by [fetchPage] or [fetchPageWith] is
    consistent, and so is every page yielded along any path, finite or not,
    of [iteratePages] and [iteratePagesWith]; in particular the pages in the
    log of a run that ends are. *)
Theorem C4_rowCount_is_length_of_rows :
  (forall (Y : Type) queryExecutionId tok,
      produces (fun _ : Y => True) (@returns_consistent _ ParsedRow)
               (fetchPage queryExecutionId tok))
  /\ (forall (Y T : Type) queryExecutionId (rowParser : RowParser T) tok,
         produces (fun _ : Y => True) (@returns_consistent _ T)
                  (fetchPageWith queryExecutionId rowParser tok))
  /\ (forall queryExecutionId,
         produces (@consistent ParsedRow) (fun _ => True)
                  (iteratePages queryExecutionId))
  /\ (forall (T : Type) queryExecutionId (rowParser : RowParser T),
         produces (@consistent T) (fun _ => True)
                  (iteratePagesWith queryExecutionId rowParser))
  /\ (forall (Y : Type) queryExecutionId tok (w w' : World Y) page,
         run (fetchPage queryExecutionId tok) w ≈ Ret (w', inr page) ->
         rowCount page = Z.of_nat (length (rows page)))
  /\ (forall (Y T : Type) queryExecutionId (rowParser : RowParser T) tok
             (w w' : World Y) page,
         run (fetchPageWith queryExecutionId rowParser tok) w ≈ Ret (w', inr page) ->
         rowCount page = Z.of_nat (length (rows page)))
  /\ (forall queryExecutionId (w w' : World (PageResult ParsedRow)) r,
         Forall (@consistent ParsedRow) (yields_of (log w)) ->
         run (iteratePages queryExecutionId) w ≈ Ret (w', r) ->
         Forall (fun page => rowCount page = Z.of_nat (length (rows page)))
                (yields_of (log w')))
  /\ (forall (T : Type) queryExecutionId (rowParser : RowParser T)
             (w w' : World (PageResult T)) r,
         Forall (@consistent T) (yields_of (log w)) ->
         run (iteratePagesWith queryExecutionId rowParser) w ≈ Ret (w', r) ->
         Forall (fun page => rowCount page = Z.of_nat (length (rows page)))
                (yields_of (log w'))).
Proof.
  assert (Hfetched : forall (Y T : Type) parse queryExecutionId tok (w w' : World Y)
                            (page : PageResult T),
             fetched parse queryExecutionId tok w = (w', inr page) -> consistent page).
  { intros Y T parse q tok w w' page. unfold fetched.
    destruct (send _ _) as [c [e | response]]; [discriminate |].
    destruct (parse _ _) as [p [e | rs]]; [discriminate |].
    intros H. injection H as _ <-. reflexivity. }
  assert (Hstep : forall (T : Type) parse queryExecutionId tok (w : World (PageResult T)),
             Forall (@consistent T) (yields_of (log w)) ->
             match paging_step (fetched parse queryExecutionId) (w, tok) with
             | inl (w', _) => Forall (@consistent T) (yields_of (log w'))
             | inr (w', _) => Forall (@consistent T) (yields_of (log w'))
             end).
  { intros T parse q tok w Hw. unfold paging_step, fetched.
    cbn [Datatypes.fst Datatypes.snd].
    destruct (send _ _) as [c [e | response]].
    - cbn. rewrite yields_of_app, app_nil_r. exact Hw.
    - destruct (parse _ _) as [p [e | rs]].
      + cbn. rewrite yields_of_app, app_nil_r. exact Hw.
      + destruct (truthy _); cbn; rewrite !yields_of_app; cbn; rewrite app_nil_r;
          (apply Forall_app; split; [exact Hw | repeat constructor]). }
  refine (conj _ (conj _ (conj _ (conj _ (conj _ (conj _ (conj _ _))))))).
  - intros Y q tok. apply fetchPage_produces.
  - intros Y T q rp tok. apply fetchPageWith_produces.
  - intros q. rewrite iteratePages_paging. apply paging_produces.
    intros tok. apply fetchPage_produces.
  - intros T q rp. rewrite iteratePagesWith_paging. apply paging_produces.
    intros tok. apply fetchPageWith_produces.
  - intros Y q tok w w' page Hrun. rewrite run_fetchPage in Hrun.
    apply eutt_inv_Ret in Hrun. exact (Hfetched _ _ _ _ _ _ _ _ Hrun).
  - intros Y T q rp tok w w' page Hrun. rewrite run_fetchPageWith in Hrun.
    apply eutt_inv_Ret in Hrun. exact (Hfetched _ _ _ _ _ _ _ _ Hrun).
  - intros q w w' r Hw Hrun. rewrite iteratePages_paging in Hrun.
    eapply (run_paging_invariant _ _ (fun tok w => run_fetchPage q tok w)
              (fun w => Forall (@consistent ParsedRow) (yields_of (log w))));
      [| exact Hw | exact Hrun].
    intros tok w0. apply Hstep.
  - intros T q rp w w' r Hw Hrun. rewrite iteratePagesWith_paging in Hrun.
    eapply (run_paging_invariant _ _ (fun tok w => run_fetchPageWith q rp tok w)
              (fun w => Forall (@consistent T) (yields_of (log w))));
      [| exact Hw | exact Hrun].
    intros tok w0. apply Hstep.
Qed.

End RowCount.

(** C4, at the page of the test 'calls GetQueryResults with queryExecutionId
    and nextToken' and at the three pages of 'yields multiple pages until
    nextToken is undefined'. *)
Lemma C4_witness :
  rowCount (exchange_page (exchange_of true page_id1_name_a)) = 1%Z
  /\ Forall (fun page : PageResult ParsedRow =>
                rowCount page = Z.of_nat (length (rows page)))
            [ exchange_page (exchange_of true page_x1);
              exchange_page (exchange_of false page_x2);
              exchange_page (exchange_of false page_x3) ].
Proof.
  destruct (@C4_rowCount_is_length_of_rows test_doubles)
    as (_ & _ & _ & _ & Hfetch & _ & Hpages & _).
  split.
  - refine (Hfetch unit "exec-123" None
              (fresh_world (createMockSend [page_id1_name_a]))
              (test_world [] default_options {| headerSeen := true |}
                 [Fetched (request "exec-123" None 1000)])
              (exchange_page (exchange_of true page_id1_name_a)) _).
    rewrite run_fetchPage. reflexivity.
  - refine (Hpages "exec-1" (fresh_world (createMockSend three_pages))
              (world_after (collaborators := test_doubles) "exec-1" 1000
                 (fresh_world (createMockSend three_pages)) None
                 [exchange_of true page_x1; exchange_of false page_x2;
                  exchange_of false page_x3]
                 [] [] {| headerSeen := true |})
              (inr tt) (Forall_nil _) _).
    rewrite iteratePages_paging.
    refine (run_chain (collaborators := test_doubles) (fetchPage "exec-1")
              (fun tok w => run_fetchPage "exec-1" tok w) _ _ eq_refl eq_refl eq_refl).
    eapply chain_link; [reflexivity | reflexivity | reflexivity |].
    eapply chain_link; [reflexivity | reflexivity | reflexivity |].
    eapply chain_last; reflexivity.
Defined.

(** ** The empty string as a token *)

Section EmptyToken.

Context {collaborators : Collaborators}.

(** C9.  For a page whose next-page token is the empty string,
    [hasNextPage] returns true (the token is defined), yet [iteratePages] and
    [iteratePagesWith] stop after yielding that page and issue no further
    fetch: wherever it stands in the pages served, the run ends there, the
    last entries of the log being the request for the page and the page.
    Manual pagination through [hasNextPage] and the generators disagree on
    such a page. *)
Theorem C9_empty_string_token_ends_the_generators :
  (forall (w : World (PageResult ParsedRow)) queryExecutionId ys z c' p',
      let m := maxResults (options (this w)) in
      Chain parseResultSet queryExecutionId m truthy
            (client w) (parser (this w)) None (ys ++ [z]) c' p' ->
      exchange_token z = Some "" ->
      hasNextPage (exchange_page z) = true
      /\ run (iteratePages queryExecutionId) w
         ≈ Ret ({| client := c';
                   this := {| options := options (this w); parser := p' |};
                   log := log w ++ chain_log queryExecutionId m None ys
                            ++ [ Fetched (request queryExecutionId (chain_token None ys) m);
                                 Yielded (exchange_page z) ] |},
                inr tt))
  /\ (forall (T : Type) (rowParser : RowParser T)
             (w : World (PageResult T)) queryExecutionId ys z c' p',
         let m := maxResults (options (this w)) in
         Chain (fun p rs => parseResultSetWith p rs rowParser) queryExecutionId m truthy
               (client w) (parser (this w)) None (ys ++ [z]) c' p' ->
         exchange_token z = Some "" ->
         hasNextPage (exchange_page z) = true
         /\ run (iteratePagesWith queryExecutionId rowParser) w
            ≈ Ret ({| client := c';
                      this := {| options := options (this w); parser := p' |};
                      log := log w ++ chain_log queryExecutionId m None ys
                               ++ [ Fetched (request queryExecutionId (chain_token None ys) m);
                                    Yielded (exchange_page z) ] |},
                   inr tt)).
Proof.
  split.
  - intros w q ys z c' p' m Hchain Hz. split.
    + unfold hasNextPage, exchange_page. rewrite prop_read_page_of.
      unfold exchange_token in Hz. now rewrite Hz.
    + assert (Hrun := run_chain (fetchPage q) (fun tok w => run_fetchPage q tok w)
                        Hchain w eq_refl eq_refl eq_refl).
      unfold world_after in Hrun. rewrite app_nil_r, chain_log_snoc in Hrun.
      rewrite iteratePages_paging. exact Hrun.
  - intros T rp w q ys z c' p' m Hchain Hz. split.
    + unfold hasNextPage, exchange_page. rewrite prop_read_page_of.
      unfold exchange_token in Hz. now rewrite Hz.
    + assert (Hrun := run_chain (fetchPageWith q rp)
                        (fun tok w => run_fetchPageWith q rp tok w)
                        Hchain w eq_refl eq_refl eq_refl).
      unfold world_after in Hrun. rewrite app_nil_r, chain_log_snoc in Hrun.
      rewrite iteratePagesWith_paging. exact Hrun.
Qed.

End EmptyToken.

(** C9, at two pages of which the first has the empty string for a token:
    [hasNextPage] says there is a next page, both generators stop, and the
    second page is never asked for. *)
Lemma C9_witness :
  (hasNextPage (exchange_page (exchange_of true page_empty_token)) = true
   /\ run (iteratePages "exec-1") (fresh_world (createMockSend empty_token_pages))
      ≈ Ret (test_world [inr (mock_response false page_x3)] default_options
               {| headerSeen := true |}
               [ Fetched (request "exec-1" None 1000);
                 Yielded (exchange_page (exchange_of true page_empty_token)) ],
             inr tt))
  /\ (hasNextPage (@exchange_page string (mock_response true page_id1_empty_token, ["1"]))
      = true
      /\ run (iteratePagesWith "exec-1" item_of_row)
             (fresh_world (createMockSend [page_id1_empty_token; page_x3]))
         ≈ Ret (test_world [inr (mock_response false page_x3)] default_options
                  {| headerSeen := true |}
                  [ Fetched (request "exec-1" None 1000);
                    Yielded (exchange_page
                               (mock_response true page_id1_empty_token, ["1"])) ],
                inr tt)).
Proof.
  split.
  - refine (proj1 (@C9_empty_string_token_ends_the_generators test_doubles)
              (fresh_world (createMockSend empty_token_pages)) "exec-1"
              [] (exchange_of true page_empty_token)
              [inr (mock_response false page_x3)] {| headerSeen := true |} _ eq_refl).
    eapply chain_last; reflexivity.
  - refine (proj2 (@C9_empty_string_token_ends_the_generators test_doubles)
              string item_of_row
              (fresh_world (createMockSend [page_id1_empty_token; page_x3])) "exec-1"
              [] (mock_response true page_id1_empty_token, ["1"])
              [inr (mock_response false page_x3)] {| headerSeen := true |} _ eq_refl).
    eapply chain_last; reflexivity.
Defined.

(** ** The option that is never read *)

Section QueryResultType.

Context {collaborators : Collaborators}.

Lemma fetched_alike (Y T : Type)
    (parse : AthenaQueryResultParser -> option ResultSet ->
             AthenaQueryResultParser * (Error + list T))
    (queryExecutionId : string) (tok : option string) (w1 w2 : World Y) :
  client w1 = client w2 ->
  parser (this w1) = parser (this w2) ->
  maxResults (options (this w1)) = maxResults (options (this w2)) ->
  log w1 = log w2 ->
  exists c p r,
    fetched parse queryExecutionId tok w1
    = ({| client := c;
          this := {| options := options (this w1); parser := p |};
          log := log w1 ++ [Fetched (request queryExecutionId tok
                                       (maxResults (options (this w1))))] |}, r)
    /\ fetched parse queryExecutionId tok w2
       = ({| client := c;
             this := {| options := options (this w2); parser := p |};
             log := log w1 ++ [Fetched (request queryExecutionId tok
                                          (maxResults (options (this w1))))] |}, r).
Proof.
  destruct w1 as [c1 [o1 p1] l1], w2 as [c2 [o2 p2] l2]. cbn.
  intros <- <- Hm <-. unfold fetched. cbn. rewrite <- Hm.
  destruct (send _ _) as [c [e | response]].
  - exists c, p1, (inl e). split; reflexivity.
  - destruct (parse _ _) as [p [e | rs]].
    + exists c, p, (inl e). split; reflexivity.
    + exists c, p, (inr (page_of response rs)). split; reflexivity.
Qed.

(** C10.  The [queryResultType] option has no effect on any behaviour: two
    pagers that differ at most in [queryResultType], in front of the same
    service with parsers in the same state, build the same request on every
    [fetchPage] and [fetchPageWith] call, the request has exactly the fields
    [QueryExecutionId], [NextToken] and [MaxResults] (no result-format
    field), and the call leaves the service and the parser in the same state
    and returns or throws the same. *)
Theorem C10_queryResultType_is_never_read
    (Y : Type) (w1 w2 : World Y) (queryExecutionId : string) (tok : option string) :
  client w1 = client w2 ->
  parser (this w1) = parser (this w2) ->
  maxResults (options (this w1)) = maxResults (options (this w2)) ->
  log w1 = log w2 ->
  let input := request queryExecutionId tok (maxResults (options (this w1))) in
  js_keys input = ["QueryExecutionId"; "NextToken"; "MaxResults"]
  /\ (exists c p r,
         run (fetchPage queryExecutionId tok) w1
         ≈ Ret ({| client := c;
                   this := {| options := options (this w1); parser := p |};
                   log := log w1 ++ [Fetched input] |}, r)
         /\ run (fetchPage queryExecutionId tok) w2
            ≈ Ret ({| client := c;
                      this := {| options := options (this w2); parser := p |};
                      log := log w1 ++ [Fetched input] |}, r))
  /\ (forall (T : Type) (rowParser : RowParser T),
         exists c p r,
           run (fetchPageWith queryExecutionId rowParser tok) w1
           ≈ Ret ({| client := c;
                     this := {| options := options (this w1); parser := p |};
                     log := log w1 ++ [Fetched input] |}, r)
           /\ run (fetchPageWith queryExecutionId rowParser tok) w2
              ≈ Ret ({| client := c;
                        this := {| options := options (this w2); parser := p |};
                        log := log w1 ++ [Fetched input] |}, r)).
Proof.
  intros Hc Hp Hm Hl input. refine (conj eq_refl (conj _ _)).
  - destruct (fetched_alike parseResultSet queryExecutionId tok w1 w2 Hc Hp Hm Hl)
      as (c & p & r & H1 & H2).
    exists c, p, r. rewrite !run_fetchPage, H1, H2. split; reflexivity.
  - intros T rowParser.
    destruct (fetched_alike (fun p rs => parseResultSetWith p rs rowParser)
                queryExecutionId tok w1 w2 Hc Hp Hm Hl)
      as (c & p & r & H1 & H2).
    exists c, p, r. rewrite !run_fetchPageWith, H1, H2. split; reflexivity.
Qed.

End QueryResultType.

(** C10, at two pagers built with and without a [queryResultType], in front
    of the client of the test 'calls GetQueryResults with queryExecutionId
    and nextToken'. *)
Lemma C10_witness :
  let w1 : World unit :=
    world_with_options {| opt_maxResults := Some 100%Z; opt_queryResultType := None |}
                       (createMockSend [page_id1_name_a]) in
  let w2 : World unit :=
    world_with_options {| opt_maxResults := Some 100%Z;
                          opt_queryResultType := Some "FORMATTED" |}
                       (createMockSend [page_id1_name_a]) in
  let input := request "exec-123" None 100 in
  queryResultType (options (this w1)) <> queryResultType (options (this w2))
  /\ js_keys input = ["QueryExecutionId"; "NextToken"; "MaxResults"]
  /\ (exists c p r,
         run (fetchPage "exec-123" None) w1
         ≈ Ret ({| client := c;
                   this := {| options := options (this w1); parser := p |};
                   log := [Fetched input] |}, r)
         /\ run (fetchPage "exec-123" None) w2
            ≈ Ret ({| client := c;
                      this := {| options := options (this w2); parser := p |};
                      log := [Fetched input] |}, r)).
Proof.
  intros w1 w2 input.
  destruct (@C10_queryResultType_is_never_read test_doubles unit w1 w2 "exec-123" None
              eq_refl eq_refl eq_refl eq_refl) as (Hkeys & Hfetch & _).
  split; [discriminate | split; [exact Hkeys | exact Hfetch]].
Defined.

(** ** Failures *)

Section Failures.

Context {collaborators : Collaborators}.

(** C8.  Every error raised by the remote service call or by the parser (a
    throwing [rowParser] included, which reaches the pager through
    [parseResultSetWith]) during [fetchPage] or [fetchPageWith] is what the
    call throws, unchanged, after the one request it made (no retry); and in
    the generators a failed fetch ends the sequence with that error: the
    pages before it were yielded, the log ends with the failed request, and
    no page follows. *)
Theorem C8_errors_propagate_unchanged :
  (* the service fails *)
  (forall (Y : Type) (w : World Y) queryExecutionId tok e c1,
      let input := request queryExecutionId tok (maxResults (options (this w))) in
      send (client w) input = (c1, inl e) ->
      run (fetchPage queryExecutionId tok) w
      ≈ Ret ({| client := c1; this := this w; log := log w ++ [Fetched input] |}, inl e)
      /\ (forall (T : Type) (rowParser : RowParser T),
             run (fetchPageWith queryExecutionId rowParser tok) w
             ≈ Ret ({| client := c1; this := this w; log := log w ++ [Fetched input] |},
                    inl e)))
  (* the parser fails *)
  /\ (forall (Y : Type) (w : World Y) queryExecutionId tok response e c1 p1,
         let input := request queryExecutionId tok (maxResults (options (this w))) in
         send (client w) input = (c1, inr response) ->
         parseResultSet (parser (this w)) (ResultSet_ response) = (p1, inl e) ->
         run (fetchPage queryExecutionId tok) w
         ≈ Ret ({| client := c1;
                   this := {| options := options (this w); parser := p1 |};
                   log := log w ++ [Fetched input] |}, inl e))
  /\ (forall (Y T : Type) (rowParser : RowParser T) (w : World Y)
             queryExecutionId tok response e c1 p1,
         let input := request queryExecutionId tok (maxResults (options (this w))) in
         send (client w) input = (c1, inr response) ->
         parseResultSetWith (parser (this w)) (ResultSet_ response) rowParser = (p1, inl e) ->
         run (fetchPageWith queryExecutionId rowParser tok) w
         ≈ Ret ({| client := c1;
                   this := {| options := options (this w); parser := p1 |};
                   log := log w ++ [Fetched input] |}, inl e))
  (* a fetch of a generator fails *)
  /\ (forall (w : World (PageResult ParsedRow)) queryExecutionId xs e c' p',
         let m := maxResults (options (this w)) in
         let l := chain_log queryExecutionId m None xs
                    ++ [Fetched (request queryExecutionId (chain_token None xs) m)] in
         Broken parseResultSet queryExecutionId m truthy
                (client w) (parser (this w)) None xs e c' p' ->
         run (iteratePages queryExecutionId) w
         ≈ Ret ({| client := c';
                   this := {| options := options (this w); parser := p' |};
                   log := log w ++ l |}, inl e)
         /\ yields_of l = List.map (@exchange_page ParsedRow) xs)
  /\ (forall (T : Type) (rowParser : RowParser T)
             (w : World (PageResult T)) queryExecutionId xs e c' p',
         let m := maxResults (options (this w)) in
         let l := chain_log queryExecutionId m None xs
                    ++ [Fetched (request queryExecutionId (chain_token None xs) m)] in
         Broken (fun p rs => parseResultSetWith p rs rowParser) queryExecutionId m truthy
                (client w) (parser (this w)) None xs e c' p' ->
         run (iteratePagesWith queryExecutionId rowParser) w
         ≈ Ret ({| client := c';
                   this := {| options := options (this w); parser := p' |};
                   log := log w ++ l |}, inl e)
         /\ yields_of l = List.map (@exchange_page T) xs).
Proof.
  refine (conj _ (conj _ (conj _ (conj _ _)))).
  - intros Y w q tok e c1 input Hs. split.
    + rewrite run_fetchPage. unfold fetched. fold input. rewrite Hs. reflexivity.
    + intros T rp. rewrite run_fetchPageWith. unfold fetched. fold input.
      rewrite Hs. reflexivity.
  - intros Y w q tok response e c1 p1 input Hs Hp.
    rewrite run_fetchPage. unfold fetched. fold input. rewrite Hs, Hp. reflexivity.
  - intros Y T rp w q tok response e c1 p1 input Hs Hp.
    rewrite run_fetchPageWith. unfold fetched. fold input. rewrite Hs, Hp. reflexivity.
  - intros w q xs e c' p' m l Hbroken. split.
    + rewrite iteratePages_paging.
      exact (run_broken (fetchPage q) (fun tok w => run_fetchPage q tok w)
               Hbroken w eq_refl eq_refl eq_refl).
    + unfold l. rewrite yields_of_app, yields_of_chain_log. cbn. apply app_nil_r.
  - intros T rp w q xs e c' p' m l Hbroken. split.
    + rewrite iteratePagesWith_paging.
      exact (run_broken (fetchPageWith q rp) (fun tok w => run_fetchPageWith q rp tok w)
               Hbroken w eq_refl eq_refl eq_refl).
    + unfold l. rewrite yields_of_app, yields_of_chain_log. cbn. apply app_nil_r.
Qed.

End Failures.

(** C8, among the test doubles: a rejection of the client after one page
    ends [iteratePages] with that rejection, one page yielded; and what a
    row parser throws is what [fetchPageWith] throws. *)
Lemma C8_witness :
  run (iteratePages "exec-1") (fresh_world one_page_then_throttled)
  ≈ Ret (test_world [] default_options {| headerSeen := true |}
           [ Fetched (request "exec-1" None 1000);
             Yielded (exchange_page (exchange_of true page_x1));
             Fetched (request "exec-1" (Some "t2") 1000) ],
         inl "ThrottlingException")
  /\ run (Y := unit) (fetchPageWith "exec-1" throwing_row_parser None)
         (fresh_world (createMockSend [page_x3]))
     ≈ Ret (test_world [] default_options {| headerSeen := true |}
              [ Fetched (request "exec-1" None 1000) ],
            inl "bad row").
Proof.
  split.
  - refine (proj1 (proj1 (proj2 (proj2 (proj2
              (@C8_errors_propagate_unchanged test_doubles))))
              (fresh_world one_page_then_throttled) "exec-1"
              [exchange_of true page_x1] "ThrottlingException" []
              {| headerSeen := true |} _)).
    eapply broken_link; [reflexivity | reflexivity | reflexivity |].
    eapply broken_send. reflexivity.
  - refine (proj1 (proj2 (proj2 (@C8_errors_propagate_unchanged test_doubles)))
              unit string throwing_row_parser
              (fresh_world (createMockSend [page_x3])) "exec-1" None
              (mock_response true page_x3) "bad row" [] {| headerSeen := true |}
              eq_refl eq_refl).
Defined.

(** ** Reset *)

Section Reset.

Context {collaborators : Collaborators}.

Lemma run_reset (Y : Type) (w : World Y) :
  run reset w ≈ Ret (with_parser new_AthenaQueryResultParser w, tt).
Proof. unfold run, reset. rewrite interp_state_trigger. reflexivity. Qed.

(** C6.  [reset()] replaces the pager's parser with a freshly initialized
    one, whatever state the old one was in, and touches nothing else.
    Consequently a [fetchPage] for another query after [reset()] has its
    response parsed by a fresh parser: when a fresh parser makes exactly one
    data row of the response (its first row taken as the header), the page
    fetched after [reset()] has exactly that one row, [rowCount] 1. *)
Theorem C6_reset_installs_a_fresh_parser (Y : Type) (w : World Y) :
  run reset w
  ≈ Ret ({| client := client w;
            this := {| options := options (this w);
                       parser := new_AthenaQueryResultParser |};
            log := log w |}, tt)
  /\ (forall queryExecutionId response c1 p1 row,
         let input := request queryExecutionId None (maxResults (options (this w))) in
         send (client w) input = (c1, inr response) ->
         parseResultSet new_AthenaQueryResultParser (ResultSet_ response)
         = (p1, inr [row]) ->
         run (reset ;; fetchPage queryExecutionId None) w
         ≈ Ret ({| client := c1;
                   this := {| options := options (this w); parser := p1 |};
                   log := log w ++ [Fetched input] |},
                inr {| rows := [row];
                       nextToken := prop_of (NextToken response);
                       rowCount := 1 |})).
Proof.
  split.
  - apply run_reset.
  - intros q response c1 p1 row input Hs Hp.
    unfold run. rewrite interp_state_bind.
    fold (run (Y := Y) reset w). rewrite run_reset, bind_ret_l.
    cbn [Datatypes.fst Datatypes.snd].
    fold (run (fetchPage q None) (with_parser new_AthenaQueryResultParser w)).
    rewrite run_fetchPage. unfold fetched. cbn [with_parser client this options parser].
    fold input. rewrite Hs, Hp. reflexivity.
Qed.

End Reset.

(** C6, with the parser modelled from its contract: a pager whose parser has
    already seen the header of a first query is reset; the flag is cleared,
    and the page of the second query, header row and one data row, comes out
    as one row. *)
Lemma C6_witness :
  let w : World unit :=
    test_world (createMockSend [page_b2]) default_options {| headerSeen := true |} [] in
  run reset w
  ≈ Ret (test_world (createMockSend [page_b2]) default_options
           {| headerSeen := false |} [], tt)
  /\ run (reset ;; fetchPage "exec-2" None) w
     ≈ Ret (test_world [] default_options {| headerSeen := true |}
              [Fetched (request "exec-2" None 1000)],
            inr {| rows := [[("b", Some "2")]];
                   nextToken := PropUndefined;
                   rowCount := 1 |}).
Proof.
  intros w. split.
  - exact (proj1 (@C6_reset_installs_a_fresh_parser test_doubles unit w)).
  - exact (proj2 (@C6_reset_installs_a_fresh_parser test_doubles unit w)
             "exec-2" (mock_response true page_b2) [] {| headerSeen := true |}
             [("b", Some "2")] eq_refl eq_refl).
Defined.

(** Without the reset, the same fetch takes the header row of the second
    query for data: two rows. *)
Lemma fetchPage_without_reset_keeps_the_header :
  run (Y := unit) (fetchPage "exec-2" None)
      (test_world (createMockSend [page_b2]) default_options {| headerSeen := true |} [])
  ≈ Ret (test_world [] default_options {| headerSeen := true |}
           [Fetched (request "exec-2" None 1000)],
         inr {| rows := [[("b", Some "b")]; [("b", Some "2")]];
                nextToken := PropUndefined;
                rowCount := 2 |}).
Proof. rewrite run_fetchPage. reflexivity. Qed.

(** ** Rows *)

Section Rows.

Context {collaborators : Collaborators}.

Ltac run_step :=
  first [ rewrite interp_state_ret
        | rewrite bind_ret_l
        | rewrite interp_state_bind
        | rewrite interp_state_trigger ];
  cbn [handle Datatypes.fst Datatypes.snd].

(** A run related to a run that ends, ends, in a related result. *)
Lemma eutt_Ret_r_inv (E : Type -> Type) (R1 R2 : Type) (RR : R1 -> R2 -> Prop)
    (t : itree E R1) (b : R2) :
  eutt RR t (Ret b) -> exists a, t ≈ Ret a /\ RR a b.
Proof.
  intros H. punfold H. red in H. cbn in H.
  remember (RetF b) as ot2 eqn:E2. remember (observe t) as ot1 eqn:E1.
  revert t E1. induction H; intros t0 E1; try discriminate.
  - injection E2 as ->. exists r1. split; [| assumption].
    rewrite (itree_eta t0), <- E1. reflexivity.
  - destruct (IHeqitF E2 t1 eq_refl) as (a & Ha & Hab).
    exists a. split; [| assumption].
    rewrite (itree_eta t0), <- E1, tau_eutt. exact Ha.
Qed.

Lemma yields_of_flatten_log (T : Type) (l : list (Observed (PageResult T))) :
  yields_of (flatten_log l) = List.concat (List.map (@rows T) (yields_of l)).
Proof.
  induction l as [| [input | page] l IH]; cbn; [reflexivity | assumption |].
  rewrite yields_of_app, IH. f_equal.
  induction (rows page) as [| r rs IHr]; cbn; [reflexivity | now rewrite IHr].
Qed.

Lemma requests_of_flatten_log (T : Type) (l : list (Observed (PageResult T))) :
  requests_of (flatten_log l) = requests_of l.
Proof.
  induction l as [| [input | page] l IH]; cbn; [reflexivity | now rewrite IH |].
  rewrite requests_of_app, IH.
  induction (rows page) as [| r rs IHr]; cbn; [reflexivity | assumption].
Qed.

Lemma flatten_log_app (T : Type) (l1 l2 : list (Observed (PageResult T))) :
  flatten_log (l1 ++ l2) = flatten_log l1 ++ flatten_log l2.
Proof.
  induction l1 as [| [input | page] l1 IH]; cbn; [reflexivity | now rewrite IH |].
  now rewrite IH, app_assoc.
Qed.

(** [for (const row of page.rows) yield row], run. *)
Lemma run_for_of_yield (Y : Type) (ys : list Y) (w : World Y) :
  run (for_of ys (fun y => ITree.trigger (Yield y))) w ≈ Ret (yielded_all ys w, tt).
Proof.
  revert w. induction ys as [| y ys IH]; intros w; unfold run; cbn [for_of].
  - rewrite interp_state_ret. unfold yielded_all. cbn. rewrite app_nil_r.
    destruct w; reflexivity.
  - do 3 run_step. fold (run (for_of ys (fun y => ITree.trigger (Yield y))) (yielded y w)).
    rewrite IH. unfold yielded_all, yielded. cbn. rewrite <- app_assoc. reflexivity.
Qed.

(** A page fetch does not yield: under [for await] it is itself. *)
Lemma for_await_fetchPageWith (Y Y' T : Type) (body : Y -> itree (pagerE Y') unit)
    (queryExecutionId : string) (rowParser : RowParser T) (tok : option string) :
  interp (for_await_step body) (fetchPageWith queryExecutionId rowParser tok)
  ≈ fetchPageWith queryExecutionId rowParser tok.
Proof.
  unfold fetchPageWith.
  rewrite interp_bind, interp_trigger. cbn [for_await_step].
  eapply eutt_clo_bind; [reflexivity |]. intros this0 ? <-.
  rewrite interp_bind, interp_trigger. cbn [for_await_step].
  eapply eutt_clo_bind; [reflexivity |]. intros [e | response] ? <-.
  { rewrite interp_ret. reflexivity. }
  rewrite interp_bind, interp_trigger. cbn [for_await_step].
  eapply eutt_clo_bind; [reflexivity |]. intros this1 ? <-.
  destruct (parseResultSetWith _ _ _) as [p r].
  rewrite interp_bind, interp_trigger. cbn [for_await_step].
  eapply eutt_clo_bind; [reflexivity |]. intros [] ? <-.
  rewrite interp_bind, interp_ret.
  eapply eutt_clo_bind; [reflexivity |]. intros [e | rs] ? <-;
    rewrite interp_ret; reflexivity.
Qed.

(** The loop of [iterateRows], run, is the iteration of its step. *)
Lemma run_iterateRows_iter (T : Type) (queryExecutionId : string)
    (rowParser : RowParser T) (tok : option string) (w : World T) :
  run (for_await (paging (fetchPageWith queryExecutionId rowParser) tok)
         (fun page => for_of (rows page) (fun row => ITree.trigger (Yield row)))) w
  ≈ ITree.iter
      (fun st =>
         Ret (rows_step (fetched (fun p rs => parseResultSetWith p rs rowParser)
                                 queryExecutionId) st))
      (w, tok).
Proof.
  set (body := fun page : PageResult T =>
                 for_of (rows page) (fun row => ITree.trigger (Yield row))).
  set (outcome := fetched (fun p rs => parseResultSetWith p rs rowParser) queryExecutionId).
  unfold run, for_await, paging.
  rewrite (interp_iter'_eutt (for_await_step body) _
             (fun tok1 =>
                r <- fetchPageWith queryExecutionId rowParser tok1 ;;
                match r with
                | inl e => Ret (inr (inl e))
                | inr page =>
                    body page ;;
                    if truthy (prop_read (nextToken page))
                    then Ret (inl (prop_read (nextToken page)))
                    else Ret (inr (inr tt))
                end)).
  - rewrite (interp_state_iter'_eutt handle _
               (fun tok1 w1 =>
                  Ret (match rows_step outcome (w1, tok1) with
                       | inl (w', tok') => (w', inl tok')
                       | inr (w', r) => (w', inr r)
                       end))).
    + unfold Basics.iter, MonadIter_stateT0, Basics.iter, MonadIter_itree.
      apply (@eutt_iter' _ _ _ _ _ eq eq); [| reflexivity].
      intros [w1 tok1] ? <-. cbn [Datatypes.fst Datatypes.snd].
      unfold Monad.bind, Monad.ret, Monad_itree. rewrite bind_ret_l. apply eqit_Ret.
      destruct (rows_step outcome (w1, tok1)) as [[w2 tok2] | [w2 r]];
        constructor; reflexivity.
    + intros tok1 w1. rewrite interp_state_bind.
      fold (run (fetchPageWith queryExecutionId rowParser tok1) w1).
      rewrite run_fetchPageWith, bind_ret_l.
      unfold rows_step. cbn [Datatypes.fst Datatypes.snd]. fold outcome.
      destruct (outcome tok1 w1) as [w2 [e | page]]; cbn [Datatypes.fst Datatypes.snd].
      * repeat run_step. reflexivity.
      * rewrite interp_state_bind. fold (run (body page) w2). unfold body.
        rewrite run_for_of_yield, bind_ret_l. cbn [Datatypes.fst Datatypes.snd].
        destruct (truthy (prop_read (nextToken page))); repeat run_step; reflexivity.
  - intros tok1. rewrite interp_bind.
    eapply eutt_clo_bind; [apply for_await_fetchPageWith |].
    intros [e | page] ? <-.
    + rewrite interp_ret. reflexivity.
    + rewrite interp_bind, interp_trigger. cbn [for_await_step].
      eapply eutt_clo_bind; [reflexivity |]. intros [] ? <-.
      cbv zeta. destruct (truthy (prop_read (nextToken page)));
        rewrite interp_ret; reflexivity.
Qed.

(** The two steps keep the two worlds flattening each other. *)
Lemma rows_step_flattens (T : Type)
    (parse : AthenaQueryResultParser -> option ResultSet ->
             AthenaQueryResultParser * (Error + list T))
    (queryExecutionId : string) (tok : option string)
    (wr : World T) (wp : World (PageResult T)) :
  flattens wr wp ->
  HeterogeneousRelations.sum_rel
    (fun a b => flattens (Datatypes.fst a) (Datatypes.fst b)
                /\ Datatypes.snd a = Datatypes.snd b)
    (fun a b => flattens (Datatypes.fst a) (Datatypes.fst b)
                /\ Datatypes.snd a = Datatypes.snd b)
    (rows_step (fetched parse queryExecutionId) (wr, tok))
    (paging_step (fetched parse queryExecutionId) (wp, tok)).
Proof.
  destruct wr as [cr tr lr], wp as [cp tp lp]. intros (Hc & Ht & Hl).
  cbn in Hc, Ht, Hl. subst cr tr lr.
  unfold rows_step, paging_step, fetched, flattens. cbn [Datatypes.fst Datatypes.snd].
  cbn [client this log].
  destruct (send _ _) as [c [e | response]].
  - constructor. cbn. rewrite flatten_log_app. auto.
  - destruct (parse _ _) as [p [e | rs]].
    + constructor. cbn. rewrite flatten_log_app. auto.
    + destruct (truthy _); constructor; cbn;
        rewrite !flatten_log_app; cbn; rewrite !app_nil_r, <- app_assoc; auto.
Qed.

(** C7.  [iterateRows] yields exactly the concatenation of the rows of the
    pages produced by [iteratePagesWith], in page order and within-page
    order, for every row type [T]: started in worlds that agree (same
    service, same pager, logs that flatten to each other), the two runs go
    the same way for ever or end alike, with the same result or exception,
    the same service and pager, the same requests, and the log of rows being
    the log of pages with each page replaced by its rows. *)
Theorem C7_iterateRows_flattens_iteratePagesWith
    (T : Type) (queryExecutionId : string) (rowParser : RowParser T)
    (wr : World T) (wp : World (PageResult T)) :
  client wr = client wp ->
  this wr = this wp ->
  log wr = flatten_log (log wp) ->
  eutt (fun a b =>
          (client (Datatypes.fst a) = client (Datatypes.fst b)
           /\ this (Datatypes.fst a) = this (Datatypes.fst b)
           /\ log (Datatypes.fst a) = flatten_log (log (Datatypes.fst b)))
          /\ Datatypes.snd a = Datatypes.snd b)
       (run (iterateRows queryExecutionId rowParser) wr)
       (run (iteratePagesWith queryExecutionId rowParser) wp)
  /\ (forall wp' r,
         run (iteratePagesWith queryExecutionId rowParser) wp ≈ Ret (wp', r) ->
         exists wr',
           run (iterateRows queryExecutionId rowParser) wr ≈ Ret (wr', r)
           /\ log wr' = flatten_log (log wp')
           /\ requests_of (log wr') = requests_of (log wp')
           /\ yields_of (log wr') = List.concat (List.map (@rows T) (yields_of (log wp')))).
Proof.
  intros Hc Ht Hl.
  assert (Hrel :
    eutt (fun a b => flattens (Datatypes.fst a) (Datatypes.fst b)
                     /\ Datatypes.snd a = Datatypes.snd b)
         (run (iterateRows queryExecutionId rowParser) wr)
         (run (iteratePagesWith queryExecutionId rowParser) wp)).
  { unfold iterateRows. rewrite iteratePagesWith_paging.
    rewrite run_iterateRows_iter.
    rewrite (run_paging_iter _ _
               (fun tok w => run_fetchPageWith queryExecutionId rowParser tok w)).
    apply (@eutt_iter' _ _ _ _ _
             (fun a b => flattens (Datatypes.fst a) (Datatypes.fst b)
                         /\ Datatypes.snd a = Datatypes.snd b)).
    - intros [wr1 tok1] [wp1 tok2] [Hf Htok]. cbn in Hf, Htok. subst tok2.
      apply eqit_Ret. now apply rows_step_flattens.
    - split; [repeat split; assumption | reflexivity]. }
  split; [exact Hrel |].
  intros wp' r Hrun. rewrite Hrun in Hrel.
  apply eutt_Ret_r_inv in Hrel. destruct Hrel as ([wr' r'] & Hrows & (_ & _ & Hlog) & Hr).
  cbn in Hlog, Hr. subst r'. exists wr'.
  refine (conj Hrows (conj Hlog (conj _ _))).
  - rewrite Hlog. apply requests_of_flatten_log.
  - rewrite Hlog. apply yields_of_flatten_log.
Qed.

End Rows.

(** C7, at the pages of the test 'yields each row from all pages', of two
    rows and of one: three rows, in page-then-within-page order. *)
Lemma C7_witness :
  exists wr',
    run (iterateRows "exec-1" item_of_row) (fresh_world (createMockSend pages_2_1))
    ≈ Ret (wr', inr tt)
    /\ log wr' = [ Fetched (request "exec-1" None 1000);
                   Yielded "1"; Yielded "2";
                   Fetched (request "exec-1" (Some "t2") 1000);
                   Yielded "3" ]
    /\ yields_of (log wr') = ["1"; "2"; "3"].
Proof.
  assert (Hpages :
    run (iteratePagesWith "exec-1" item_of_row) (fresh_world (createMockSend pages_2_1))
    ≈ Ret (world_after (collaborators := test_doubles) "exec-1" 1000
             (fresh_world (createMockSend pages_2_1)) None
             [(mock_response true page_id12, ["1"; "2"]);
              (mock_response false page_id3, ["3"])]
             [] [] {| headerSeen := true |},
           inr tt)).
  { rewrite iteratePagesWith_paging.
    refine (run_chain (collaborators := test_doubles) (fetchPageWith "exec-1" item_of_row)
              (fun tok w => run_fetchPageWith "exec-1" item_of_row tok w)
              _ _ eq_refl eq_refl eq_refl).
    eapply chain_link; [reflexivity | reflexivity | reflexivity |].
    eapply chain_last; reflexivity. }
  destruct (proj2 (@C7_iterateRows_flattens_iteratePagesWith test_doubles string
                     "exec-1" item_of_row
                     (fresh_world (createMockSend pages_2_1))
                     (fresh_world (createMockSend pages_2_1))
                     eq_refl eq_refl eq_refl) _ _ Hpages)
    as (wr' & Hrows & Hlog & _ & Hyields).
  exists wr'. split; [exact Hrows | split]; [rewrite Hlog | rewrite Hyields]; reflexivity.
Defined.

(** * Part III: further properties of the code *)

(** ** A page fetch, whatever comes of it *)

Section OneFetch.

Context {collaborators : Collaborators}.

Lemma fetched_one_request (Y T : Type)
    (parse : AthenaQueryResultParser -> option ResultSet ->
             AthenaQueryResultParser * (Error + list T))
    (queryExecutionId : string) (tok : option string) (w : World Y) :
  exists w' r,
    fetched parse queryExecutionId tok w = (w', r)
    /\ log w' = log w ++ [Fetched (request queryExecutionId tok
                                     (maxResults (options (this w))))]
    /\ options (this w') = options (this w).
Proof.
  unfold fetched.
  destruct (send _ _) as [c [e | response]].
  - eexists _, _. repeat split.
  - destruct (parse _ _) as [p [e | rs]]; eexists _, _; repeat split.
Qed.

(** X1.  Whatever the service and the parser do, a call of [fetchPage] or
    [fetchPageWith] ends, having sent exactly one request and yielded
    nothing; the request carries the query execution id, the token it was
    given, unchanged ([undefined] when there is none), and the pager's
    [maxResults]; the pager's options are as before. *)
Theorem X1_fetch_sends_exactly_one_request
    (Y : Type) (w : World Y) (queryExecutionId : string) (tok : option string) :
  let sends_one (w' : World Y) :=
    exists input,
      log w' = log w ++ [Fetched input]
      /\ js_get input "QueryExecutionId" = JsString queryExecutionId
      /\ js_get input "NextToken" = js_of_string_or_undefined tok
      /\ js_get input "MaxResults" = JsNumber (maxResults (options (this w)))
      /\ yields_of (log w') = yields_of (log w)
      /\ options (this w') = options (this w) in
  (exists w' r, run (fetchPage queryExecutionId tok) w ≈ Ret (w', r) /\ sends_one w')
  /\ (forall (T : Type) (rowParser : RowParser T),
         exists w' r,
           run (fetchPageWith queryExecutionId rowParser tok) w ≈ Ret (w', r)
           /\ sends_one w').
Proof.
  intros sends_one.
  assert (H : forall (T : Type) parse (w' : World Y) (r : Error + PageResult T),
             fetched parse queryExecutionId tok w = (w', r) ->
             log w' = log w ++ [Fetched (request queryExecutionId tok
                                           (maxResults (options (this w))))] ->
             options (this w') = options (this w) ->
             sends_one w').
  { intros T parse w' r _ Hlog Hopt. eexists. split; [exact Hlog |].
    repeat split; try assumption.
    rewrite Hlog, yields_of_app. cbn. apply app_nil_r. }
  split.
  - destruct (fetched_one_request parseResultSet queryExecutionId tok w)
      as (w' & r & Hf & Hlog & Hopt).
    exists w', r. split; [rewrite run_fetchPage, Hf; reflexivity | eauto].
  - intros T rowParser.
    destruct (fetched_one_request (fun p rs => parseResultSetWith p rs rowParser)
                queryExecutionId tok w)
      as (w' & r & Hf & Hlog & Hopt).
    exists w', r. split; [rewrite run_fetchPageWith, Hf; reflexivity | eauto].
Qed.

(** X2.  The constructor's defaults reach the service: a pager built
    without [maxResults] asks for 1000 rows a page, a pager built with
    [maxResults: n] asks for [n], whatever [n] is ([??] replaces only a
    missing value, so 0 stays 0); its parser is a fresh one, and its
    [queryResultType] is the one given or ['DATA_ROWS']. *)
Theorem X2_constructor_defaults_reach_the_request
    (Y : Type) (opts : PagerOptions) (c : AthenaClient) (l : list (Observed Y))
    (queryExecutionId : string) (tok : option string) :
  let w := {| client := c; this := new_AthenaQueryResultPager opts; log := l |} in
  let n := match opt_maxResults opts with
           | Some n => n
           | None => 1000%Z
           end in
  parser (this w) = new_AthenaQueryResultParser
  /\ queryResultType (options (this w))
     = match opt_queryResultType opts with
       | Some q => q
       | None => "DATA_ROWS"
       end
  /\ exists w' r,
       run (fetchPage queryExecutionId tok) w ≈ Ret (w', r)
       /\ log w' = l ++ [Fetched [ ("QueryExecutionId", JsString queryExecutionId);
                                   ("NextToken", js_of_string_or_undefined tok);
                                   ("MaxResults", JsNumber n) ]].
Proof.
  intros w n. split; [reflexivity | split].
  - cbn. destruct (opt_queryResultType opts); reflexivity.
  - destruct (fetched_one_request parseResultSet queryExecutionId tok w)
      as (w' & r & Hf & Hlog & _).
    exists w', r. split; [rewrite run_fetchPage, Hf; reflexivity |].
    rewrite Hlog. cbn. unfold n. destruct (opt_maxResults opts); reflexivity.
Qed.

(** X3.  When the service answers and the parser succeeds, [fetchPage]
    returns the parser's rows as they are, with [rowCount] their number and
    [nextToken] the token of the response, the property being always there
    (holding [undefined] when the response has no token); so [hasNextPage] of
    the page says whether the response carried a token.  The parser is left
    in the state the call put it in.  The same holds of [fetchPageWith] and
    the rows converted by its row parser. *)
Theorem X3_fetch_returns_the_parsed_page
    (Y : Type) (w : World Y) (queryExecutionId : string) (tok : option string)
    (response : GetQueryResultsCommandOutput) (c1 : AthenaClient) :
  let input := request queryExecutionId tok (maxResults (options (this w))) in
  let after p1 : World Y :=
    {| client := c1;
       this := {| options := options (this w); parser := p1 |};
       log := log w ++ [Fetched input] |} in
  send (client w) input = (c1, inr response) ->
  (forall rs p1,
      parseResultSet (parser (this w)) (ResultSet_ response) = (p1, inr rs) ->
      exists page,
        run (fetchPage queryExecutionId tok) w ≈ Ret (after p1, inr page)
        /\ rows page = rs
        /\ rowCount page = Z.of_nat (length rs)
        /\ prop_read (nextToken page) = NextToken response
        /\ nextToken page <> PropMissing
        /\ hasNextPage page = present (NextToken response))
  /\ (forall (T : Type) (rowParser : RowParser T) (rs : list T) p1,
         parseResultSetWith (parser (this w)) (ResultSet_ response) rowParser
         = (p1, inr rs) ->
         exists page,
           run (fetchPageWith queryExecutionId rowParser tok) w ≈ Ret (after p1, inr page)
           /\ rows page = rs
           /\ rowCount page = Z.of_nat (length rs)
           /\ prop_read (nextToken page) = NextToken response
           /\ nextToken page <> PropMissing
           /\ hasNextPage page = present (NextToken response)).
Proof.
  intros input after Hs.
  assert (Hpage : forall (T : Type) (rs : list T),
             rows (page_of response rs) = rs
             /\ rowCount (page_of response rs) = Z.of_nat (length rs)
             /\ prop_read (nextToken (page_of response rs)) = NextToken response
             /\ nextToken (page_of response rs) <> PropMissing
             /\ hasNextPage (page_of response rs) = present (NextToken response)).
  { intros T rs. unfold hasNextPage. rewrite prop_read_page_of.
    repeat split. cbn. destruct (NextToken response); discriminate. }
  split.
  - intros rs p1 Hp. exists (page_of response rs). split; [| apply Hpage].
    rewrite run_fetchPage. unfold fetched. fold input. rewrite Hs, Hp. reflexivity.
  - intros T rowParser rs p1 Hp. exists (page_of response rs). split; [| apply Hpage].
    rewrite run_fetchPageWith. unfold fetched. fold input. rewrite Hs, Hp. reflexivity.
Qed.

End OneFetch.

(** X3, at the test 'parses rows with custom row parser' (an item being the
    [id] of its row) and at the same page fetched raw. *)
Lemma X3_witness :
  let w : World unit := fresh_world (createMockSend [page_alice_bob]) in
  (exists page,
      run (fetchPage "exec-1" None) w
      ≈ Ret (test_world [] default_options {| headerSeen := true |}
               [Fetched (request "exec-1" None 1000)], inr page)
      /\ rows page = mock_rows page_alice_bob
      /\ rowCount page = 2%Z
      /\ prop_read (nextToken page) = None
      /\ nextToken page <> PropMissing
      /\ hasNextPage page = false)
  /\ (exists page,
         run (fetchPageWith "exec-1" item_of_row None) w
         ≈ Ret (test_world [] default_options {| headerSeen := true |}
                  [Fetched (request "exec-1" None 1000)], inr page)
         /\ rows page = ["1"; "2"]
         /\ rowCount page = 2%Z
         /\ prop_read (nextToken page) = None
         /\ nextToken page <> PropMissing
         /\ hasNextPage page = false).
Proof.
  intros w.
  destruct (@X3_fetch_returns_the_parsed_page test_doubles unit w "exec-1" None
              (mock_response true page_alice_bob) [] eq_refl) as [Hraw Hwith].
  split.
  - exact (Hraw (mock_rows page_alice_bob) {| headerSeen := true |} eq_refl).
  - exact (Hwith string item_of_row ["1"; "2"] {| headerSeen := true |} eq_refl).
Defined.

(** ** The page generators, whatever the service *)

Section AnyService.

Context {collaborators : Collaborators}.

(** An iteration of a pure step ends only where a step says so, and what
    the steps keep holds then. *)
Lemma iter_pure_post (I R : Type) (f : I -> I + R) (Inv : I -> Prop) (Q : R -> Prop) :
  (forall i, Inv i -> match f i with
                      | inl i' => Inv i'
                      | inr r => Q r
                      end) ->
  forall i r, Inv i -> ITree.iter (E := void1) (fun i => Ret (f i)) i ≈ Ret r -> Q r.
Proof.
  intros Hstep i r Hi Hrun.
  assert (Hpost : has_post (E := void1) (ITree.iter (fun i => Ret (f i)) i) Q).
  { apply has_post_iter_strong with (Inv := Inv); [| exact Hi].
    intros j Hj. unfold has_post. apply eqit_Ret.
    specialize (Hstep j Hj). destruct (f j); cbn; exact Hstep. }
  unfold has_post in Hpost. rewrite Hrun in Hpost.
  apply eqit_inv_Ret in Hpost. exact Hpost.
Qed.

Lemma iter_pure_unfold (I R : Type) (f : I -> I + R) (i : I) :
  ITree.iter (E := void1) (fun i => Ret (f i)) i
  ≈ match f i with
    | inl i' => ITree.iter (fun i => Ret (f i)) i'
    | inr r => Ret r
    end.
Proof.
  rewrite unfold_iter, bind_ret_l.
  destruct (f i); [rewrite tau_eutt |]; reflexivity.
Qed.

(** X4.  For every finite chain of N service pages in which every page but
    the last carries a non-empty continuation token leading to the next page
    and the last page's token is absent or the empty string,
    [iteratePagesWith] ends normally having yielded exactly the N pages of
    converted rows in continuation order and issued exactly N requests,
    request and page alternating in the log. *)
Theorem X4_iteratePagesWith_yields_the_chain
    (T : Type) (rowParser : RowParser T)
    (w : World (PageResult T)) (queryExecutionId : string)
    (xs : list (Exchange T)) (c' : AthenaClient) (p' : AthenaQueryResultParser) :
  let m := maxResults (options (this w)) in
  let l := chain_log queryExecutionId m None xs in
  Chain (fun p rs => parseResultSetWith p rs rowParser) queryExecutionId m truthy
        (client w) (parser (this w)) None xs c' p' ->
  run (iteratePagesWith queryExecutionId rowParser) w
  ≈ Ret ({| client := c';
            this := {| options := options (this w); parser := p' |};
            log := log w ++ l |}, inr tt)
  /\ yields_of l = List.map (@exchange_page T) xs
  /\ length (requests_of l) = length xs
  /\ (forall k x, nth_error xs k = Some x ->
        nth_error l (2 * k)
        = Some (Fetched (request queryExecutionId (chain_token None (firstn k xs)) m))
        /\ nth_error l (2 * k + 1) = Some (Yielded (exchange_page x))).
Proof.
  intros m l Hchain.
  assert (Hrun := run_chain (fetchPageWith queryExecutionId rowParser)
                    (fun tok w => run_fetchPageWith queryExecutionId rowParser tok w)
                    Hchain w eq_refl eq_refl eq_refl).
  unfold world_after in Hrun. rewrite app_nil_r in Hrun.
  refine (conj _ (conj _ (conj _ _))).
  - rewrite iteratePagesWith_paging. exact Hrun.
  - apply yields_of_chain_log.
  - apply length_requests_of_chain_log.
  - intros k x Hk. apply chain_log_nth; assumption.
Qed.

(** What a log that follows the protocol looks like. *)
Lemma Paged_facts (T : Type) (queryExecutionId : string) (m : Z)
    (tok : option string) (l : list (Observed (PageResult T))) (b : bool) :
  Paged queryExecutionId m tok l b ->
  (exists l', l = Fetched (request queryExecutionId tok m) :: l')
  /\ Forall (fun input =>
               js_get input "QueryExecutionId" = JsString queryExecutionId
               /\ js_get input "MaxResults" = JsNumber m)
            (requests_of l)
  /\ Forall (fun input => js_get input "NextToken" <> JsString "")
            (List.tl (requests_of l))
  /\ length (requests_of l)
     = (length (yields_of l) + if b then 0 else 1)%nat.
Proof.
  induction 1 as [tok | tok page Hf | tok page l b Ht _ IH].
  - cbn. repeat split; eauto.
  - cbn. repeat split; eauto.
  - destruct IH as ((l' & ->) & Hq & Hne & Hlen).
    cbn in Hq, Hne, Hlen |- *.
    refine (conj _ (conj _ (conj _ _))); [eauto | now constructor | |].
    + constructor; [| exact Hne].
      destruct (prop_read (nextToken page)) as [s |]; [| discriminate Ht].
      unfold truthy in Ht. apply negb_true_iff in Ht. apply String.eqb_neq in Ht.
      cbn. intros H. injection H as H. contradiction.
    + now rewrite Hlen.
Qed.

Lemma paging_follows_protocol (T : Type)
    (parse : AthenaQueryResultParser -> option ResultSet ->
             AthenaQueryResultParser * (Error + list T))
    (fetch : option string -> itree (pagerE (PageResult T)) (Error + PageResult T))
    (queryExecutionId : string)
    (Hfetch : forall tok w, run (fetch tok) w ≈ Ret (fetched parse queryExecutionId tok w))
    (tok : option string) (w w' : World (PageResult T)) (r : Error + unit) :
  run (paging fetch tok) w ≈ Ret (w', r) ->
  options (this w') = options (this w)
  /\ exists l, log w' = log w ++ l
               /\ Paged queryExecutionId (maxResults (options (this w))) tok l
                        (ended_normally r).
Proof.
  intros Hrun. rewrite (run_paging_iter _ _ Hfetch) in Hrun.
  set (m := maxResults (options (this w))).
  refine (@iter_pure_post _ _
            (paging_step (fetched parse queryExecutionId))
            (fun st => options (this (Datatypes.fst st)) = options (this w)
                       /\ exists l1, log (Datatypes.fst st) = log w ++ l1
                            /\ forall l2 b,
                                 Paged queryExecutionId m (Datatypes.snd st) l2 b ->
                                 Paged queryExecutionId m tok (l1 ++ l2) b)
            (fun res => options (this (Datatypes.fst res)) = options (this w)
                        /\ exists l, log (Datatypes.fst res) = log w ++ l
                             /\ Paged queryExecutionId m tok l
                                      (ended_normally (Datatypes.snd res)))
            _ (w, tok) (w', r) _ Hrun).
  - intros [w1 tok1] (Hopt & l1 & Hl1 & Hk). cbn [Datatypes.fst Datatypes.snd] in *.
    unfold paging_step, fetched. cbn [Datatypes.fst Datatypes.snd].
    rewrite Hopt. fold m.
    destruct (send _ _) as [c [e | response]].
    + cbn. split; [exact Hopt |]. eexists. split.
      * rewrite Hl1, <- app_assoc. reflexivity.
      * apply Hk. constructor.
    + destruct (parse _ _) as [p [e | rs]].
      * cbn. split; [exact Hopt |]. eexists. split.
        -- rewrite Hl1, <- app_assoc. reflexivity.
        -- apply Hk. constructor.
      * destruct (truthy (prop_read (nextToken (page_of response rs)))) eqn:Ht.
        -- cbn [Datatypes.fst Datatypes.snd]. cbn [yielded with_parser sent this options log].
           split; [exact Hopt |].
           exists (l1 ++ [Fetched (request queryExecutionId tok1 m);
                          Yielded (page_of response rs)]).
           split; [rewrite Hl1, <- !app_assoc; reflexivity |].
           intros l2 b H2. rewrite <- app_assoc. apply Hk. cbn.
           apply paged_more; assumption.
        -- cbn [Datatypes.fst Datatypes.snd]. cbn [yielded with_parser sent this options log].
           split; [exact Hopt |]. eexists. split.
           ++ rewrite Hl1, <- !app_assoc. reflexivity.
           ++ apply Hk. cbn. apply paged_last. exact Ht.
  - cbn. split; [reflexivity |]. exists []. split; [now rewrite app_nil_r |].
    intros l2 b H2. exact H2.
Qed.

(** X5.  Whatever the service and the parser do, a run of [iteratePages]
    or [iteratePagesWith] that ends has followed the paging protocol: what
    it added to the log starts with a request without token, requests and
    pages alternate, every request carries the same query execution id and
    [maxResults], every request after the first carries the token of the
    page yielded just before it, which is never the empty string, and there
    are as many requests as pages when the generator ended normally, one more
    when it ended by an exception. *)
Theorem X5_generators_follow_the_paging_protocol :
  (forall queryExecutionId (w w' : World (PageResult ParsedRow)) r,
      run (iteratePages queryExecutionId) w ≈ Ret (w', r) ->
      let m := maxResults (options (this w)) in
      exists l,
        log w' = log w ++ l
        /\ Paged queryExecutionId m None l (ended_normally r)
        /\ (exists l', l = Fetched (request queryExecutionId None m) :: l')
        /\ Forall (fun input =>
                     js_get input "QueryExecutionId" = JsString queryExecutionId
                     /\ js_get input "MaxResults" = JsNumber m)
                  (requests_of l)
        /\ Forall (fun input => js_get input "NextToken" <> JsString "")
                  (requests_of l)
        /\ length (requests_of l)
           = (length (yields_of l) + if ended_normally r then 0 else 1)%nat)
  /\ (forall (T : Type) (rowParser : RowParser T) queryExecutionId
             (w w' : World (PageResult T)) r,
         run (iteratePagesWith queryExecutionId rowParser) w ≈ Ret (w', r) ->
         let m := maxResults (options (this w)) in
         exists l,
           log w' = log w ++ l
           /\ Paged queryExecutionId m None l (ended_normally r)
           /\ (exists l', l = Fetched (request queryExecutionId None m) :: l')
           /\ Forall (fun input =>
                        js_get input "QueryExecutionId" = JsString queryExecutionId
                        /\ js_get input "MaxResults" = JsNumber m)
                     (requests_of l)
           /\ Forall (fun input => js_get input "NextToken" <> JsString "")
                     (requests_of l)
           /\ length (requests_of l)
              = (length (yields_of l) + if ended_normally r then 0 else 1)%nat).
Proof.
  assert (H : forall (T : Type) q m (l : list (Observed (PageResult T))) b,
             Paged q m None l b ->
             Paged q m None l b
             /\ (exists l', l = Fetched (request q None m) :: l')
             /\ Forall (fun input => js_get input "QueryExecutionId" = JsString q
                                     /\ js_get input "MaxResults" = JsNumber m)
                       (requests_of l)
             /\ Forall (fun input => js_get input "NextToken" <> JsString "")
                       (requests_of l)
             /\ length (requests_of l)
                = (length (yields_of l) + if b then 0 else 1)%nat).
  { intros T q m l b HP.
    destruct (Paged_facts HP) as ((l' & ->) & Hq & Hne & Hlen).
    refine (conj HP (conj _ (conj Hq (conj _ Hlen)))); [eauto |].
    cbn in *. constructor; [discriminate | exact Hne]. }
  split.
  - intros q w w' r Hrun m. rewrite iteratePages_paging in Hrun.
    destruct (@paging_follows_protocol _ parseResultSet (fetchPage q) q
                (fun tok w => run_fetchPage q tok w) None w w' r Hrun)
      as (_ & l & Hl & HP).
    exists l. split; [exact Hl | now apply H].
  - intros T rp q w w' r Hrun m. rewrite iteratePagesWith_paging in Hrun.
    destruct (@paging_follows_protocol _ (fun p rs => parseResultSetWith p rs rp)
                (fetchPageWith q rp) q
                (fun tok w => run_fetchPageWith q rp tok w) None w w' r Hrun)
      as (_ & l & Hl & HP).
    exists l. split; [exact Hl | now apply H].
Qed.

End AnyService.

(** X4, at three pages read through the row parser of the tests, the second
    with the empty string for a token: the chain ends there, and the third
    page stays with the client. *)
Lemma X4_witness :
  run (iteratePagesWith "exec-1" item_of_row)
      (fresh_world (createMockSend [page_id12; page_id1_empty_token; page_id3]))
  ≈ Ret (test_world [inr (mock_response false page_id3)] default_options
           {| headerSeen := true |}
           [ Fetched (request "exec-1" None 1000);
             Yielded {| rows := ["1"; "2"]; nextToken := PropValue "t2"; rowCount := 2 |};
             Fetched (request "exec-1" (Some "t2") 1000);
             Yielded {| rows := ["1"]; nextToken := PropValue ""; rowCount := 1 |} ],
         inr tt).
Proof.
  refine (proj1 (@X4_iteratePagesWith_yields_the_chain test_doubles string item_of_row
                   (fresh_world (createMockSend [page_id12; page_id1_empty_token; page_id3]))
                   "exec-1"
                   [(mock_response true page_id12, ["1"; "2"]);
                    (mock_response false page_id1_empty_token, ["1"])]
                   [inr (mock_response false page_id3)] {| headerSeen := true |} _)).
  eapply chain_link; [reflexivity | reflexivity | reflexivity |].
  eapply chain_last; reflexivity.
Defined.

(** X5, at a client that serves one page and then rejects: two requests,
    one page, the second request with the token of the page. *)
Lemma X5_witness :
  exists l,
    [ Fetched (request "exec-1" None 1000);
      Yielded (exchange_page (exchange_of true page_x1));
      Fetched (request "exec-1" (Some "t2") 1000) ] = [] ++ l
    /\ Paged "exec-1" 1000 None l false
    /\ (exists l', l = Fetched (request "exec-1" None 1000) :: l')
    /\ Forall (fun input => js_get input "QueryExecutionId" = JsString "exec-1"
                            /\ js_get input "MaxResults" = JsNumber 1000)
              (requests_of l)
    /\ Forall (fun input => js_get input "NextToken" <> JsString "") (requests_of l)
    /\ length (requests_of l) = (length (yields_of l) + 1)%nat.
Proof.
  refine (proj1 (@X5_generators_follow_the_paging_protocol test_doubles)
            "exec-1" (fresh_world one_page_then_throttled)
            (test_world [] default_options {| headerSeen := true |}
               [ Fetched (request "exec-1" None 1000);
                 Yielded (exchange_page (exchange_of true page_x1));
                 Fetched (request "exec-1" (Some "t2") 1000) ])
            (inl "ThrottlingException") _).
  rewrite iteratePages_paging.
  refine (run_broken (collaborators := test_doubles) (fetchPage "exec-1")
            (fun tok w => run_fetchPage "exec-1" tok w)
            (xs := [exchange_of true page_x1]) _ _ eq_refl eq_refl eq_refl).
  eapply broken_link; [reflexivity | reflexivity | reflexivity |].
  eapply broken_send. reflexivity.
Defined.

(** ** A service that never stops *)

Section Endless.

Context {collaborators : Collaborators}.

Lemma paging_never_ends (T : Type)
    (parse : AthenaQueryResultParser -> option ResultSet ->
             AthenaQueryResultParser * (Error + list T))
    (fetch : option string -> itree (pagerE (PageResult T)) (Error + PageResult T))
    (queryExecutionId : string)
    (Hfetch : forall tok w, run (fetch tok) w ≈ Ret (fetched parse queryExecutionId tok w))
    (w : World (PageResult T))
    (I : AthenaClient -> AthenaQueryResultParser -> Prop) :
  I (client w) (parser (this w)) ->
  (forall c p tok,
      I c p ->
      exists c1 p1 response rs,
        send c (request queryExecutionId tok (maxResults (options (this w))))
        = (c1, inr response)
        /\ parse p (ResultSet_ response) = (p1, inr rs)
        /\ truthy (NextToken response) = true
        /\ I c1 p1) ->
  forall tok w' r, ~ run (paging fetch tok) w ≈ Ret (w', r).
Proof.
  intros HI Hmore tok w' r Hrun. rewrite (run_paging_iter _ _ Hfetch) in Hrun.
  refine (@iter_pure_post _ _
            (paging_step (fetched parse queryExecutionId))
            (fun st => options (this (Datatypes.fst st)) = options (this w)
                       /\ I (client (Datatypes.fst st)) (parser (this (Datatypes.fst st))))
            (fun _ => False)
            _ (w, tok) (w', r) (conj eq_refl HI) Hrun).
  intros [w1 tok1] [Hopt H1]. cbn [Datatypes.fst Datatypes.snd] in *.
  unfold paging_step, fetched. cbn [Datatypes.fst Datatypes.snd]. rewrite Hopt.
  destruct (Hmore _ _ tok1 H1) as (c1 & p1 & response & rs & Hs & Hp & Ht & H2).
  rewrite Hs, Hp, prop_read_page_of, Ht. cbn. auto.
Qed.

(** X6.  The loops have no bound of their own: against a service that
    answers every request with a page whose token is non-empty (and a parser
    that accepts the pages), no run of [iteratePages] or [iteratePagesWith]
    ever ends, normally or by an exception. *)
Theorem X6_generators_never_end_on_an_endless_service
    (queryExecutionId : string) (I : AthenaClient -> AthenaQueryResultParser -> Prop) :
  (forall w : World (PageResult ParsedRow),
      I (client w) (parser (this w)) ->
      (forall c p tok,
          I c p ->
          exists c1 p1 response rs,
            send c (request queryExecutionId tok (maxResults (options (this w))))
            = (c1, inr response)
            /\ parseResultSet p (ResultSet_ response) = (p1, inr rs)
            /\ truthy (NextToken response) = true
            /\ I c1 p1) ->
      forall w' r, ~ run (iteratePages queryExecutionId) w ≈ Ret (w', r))
  /\ (forall (T : Type) (rowParser : RowParser T) (w : World (PageResult T)),
         I (client w) (parser (this w)) ->
         (forall c p tok,
             I c p ->
             exists c1 p1 response rs,
               send c (request queryExecutionId tok (maxResults (options (this w))))
               = (c1, inr response)
               /\ parseResultSetWith p (ResultSet_ response) rowParser = (p1, inr rs)
               /\ truthy (NextToken response) = true
               /\ I c1 p1) ->
         forall w' r, ~ run (iteratePagesWith queryExecutionId rowParser) w ≈ Ret (w', r)).
Proof.
  split.
  - intros w HI Hmore w' r. rewrite iteratePages_paging.
    exact (@paging_never_ends _ parseResultSet (fetchPage queryExecutionId)
             queryExecutionId (fun tok w => run_fetchPage queryExecutionId tok w)
             w I HI Hmore None w' r).
  - intros T rp w HI Hmore w' r. rewrite iteratePagesWith_paging.
    exact (@paging_never_ends _ (fun p rs => parseResultSetWith p rs rp)
             (fetchPageWith queryExecutionId rp)
             queryExecutionId (fun tok w => run_fetchPageWith queryExecutionId rp tok w)
             w I HI Hmore None w' r).
Qed.

End Endless.

(** X6, at the service whose every answer carries the token ["more"]. *)
Lemma X6_witness :
  True /\ forall w' r, ~ run (iteratePages "exec-1") endless_world ≈ Ret (w', r).
Proof.
  split; [exact I |].
  refine (proj1 (@X6_generators_never_end_on_an_endless_service endless_doubles
                   "exec-1" (fun _ _ => True))
            endless_world I _).
  intros c p tok _. destruct c, p as [[|]].
  - exists tt, {| headerSeen := true |},
      {| ResultSet_ := None; NextToken := Some "more" |}, [].
    repeat split.
  - exists tt, {| headerSeen := false |},
      {| ResultSet_ := None; NextToken := Some "more" |}, [].
    repeat split.
Defined.

(** ** Rows over chains of pages *)

Section RowsOverChains.

Context {collaborators : Collaborators}.

Variable T : Type.
Variable parse :
  AthenaQueryResultParser -> option ResultSet ->
  AthenaQueryResultParser * (Error + list T).
Variable queryExecutionId : string.
Variable m : Z.

Lemma rows_chain c p tok xs c' p' :
  Chain parse queryExecutionId m truthy c p tok xs c' p' ->
  forall w : World T,
    client w = c -> parser (this w) = p -> maxResults (options (this w)) = m ->
    ITree.iter (E := void1)
      (fun st => Ret (rows_step (fetched parse queryExecutionId) st)) (w, tok)
    ≈ Ret ({| client := c';
              this := {| options := options (this w); parser := p' |};
              log := log w ++ flatten_log (chain_log queryExecutionId m tok xs) |},
           inr tt).
Proof.
  induction 1 as [c p tok response rs c1 p1 Hs Hp Hm
                 | c p tok response rs c1 p1 xs c' p' Hs Hp Hm _ IH];
    intros w Hc Hpw Hmw.
  - rewrite iter_pure_unfold. unfold rows_step, fetched.
    cbn [Datatypes.fst Datatypes.snd].
    rewrite Hc, Hpw, Hmw, Hs, Hp, prop_read_page_of, Hm.
    unfold yielded_all, with_parser, sent. cbn.
    rewrite app_nil_r, <- app_assoc. reflexivity.
  - rewrite iter_pure_unfold. unfold rows_step, fetched.
    cbn [Datatypes.fst Datatypes.snd].
    rewrite Hc, Hpw, Hmw, Hs, Hp, prop_read_page_of, Hm.
    rewrite IH by (cbn; auto).
    unfold yielded_all, with_parser, sent. cbn.
    rewrite <- !app_assoc. reflexivity.
Qed.

Lemma rows_broken c p tok xs e c' p' :
  Broken parse queryExecutionId m truthy c p tok xs e c' p' ->
  forall w : World T,
    client w = c -> parser (this w) = p -> maxResults (options (this w)) = m ->
    ITree.iter (E := void1)
      (fun st => Ret (rows_step (fetched parse queryExecutionId) st)) (w, tok)
    ≈ Ret ({| client := c';
              this := {| options := options (this w); parser := p' |};
              log := log w ++ flatten_log (chain_log queryExecutionId m tok xs)
                       ++ [Fetched (request queryExecutionId (chain_token tok xs) m)] |},
           inl e).
Proof.
  induction 1 as [c p tok e c1 Hs
                 | c p tok response e c1 p1 Hs Hp
                 | c p tok response rs c1 p1 xs e c' p' Hs Hp Hm _ IH];
    intros w Hc Hpw Hmw.
  - rewrite iter_pure_unfold. unfold rows_step, fetched.
    cbn [Datatypes.fst Datatypes.snd].
    rewrite Hc, Hmw, Hs. unfold sent. cbn. rewrite <- Hpw.
    destruct w as [c0 [o0 p0] l0]. reflexivity.
  - rewrite iter_pure_unfold. unfold rows_step, fetched.
    cbn [Datatypes.fst Datatypes.snd].
    rewrite Hc, Hpw, Hmw, Hs, Hp. unfold with_parser, sent. cbn. reflexivity.
  - rewrite iter_pure_unfold. unfold rows_step, fetched.
    cbn [Datatypes.fst Datatypes.snd].
    rewrite Hc, Hpw, Hmw, Hs, Hp, prop_read_page_of, Hm.
    rewrite IH by (cbn; auto).
    unfold yielded_all, with_parser, sent. cbn.
    rewrite <- !app_assoc. reflexivity.
Qed.

Lemma yields_of_flattened_chain tok (xs : list (Exchange T)) :
  yields_of (flatten_log (chain_log queryExecutionId m tok xs))
  = List.concat (List.map (@Datatypes.snd _ _) xs).
Proof.
  revert tok. induction xs as [| [response rs] xs IH]; intros tok; cbn; [reflexivity |].
  rewrite yields_of_app, IH. f_equal.
  induction rs as [| r rs IHr]; cbn; [reflexivity | now rewrite IHr].
Qed.

Lemma requests_of_flattened_chain tok (xs : list (Exchange T)) :
  length (requests_of (flatten_log (chain_log queryExecutionId m tok xs))) = length xs.
Proof.
  rewrite requests_of_flatten_log. apply length_requests_of_chain_log.
Qed.

End RowsOverChains.

Section RowsTheorems.

Context {collaborators : Collaborators}.

Lemma run_iterateRows (T : Type) (queryExecutionId : string) (rowParser : RowParser T)
    (w : World T) :
  run (iterateRows queryExecutionId rowParser) w
  ≈ ITree.iter
      (fun st =>
         Ret (rows_step (fetched (fun p rs => parseResultSetWith p rs rowParser)
                                 queryExecutionId) st))
      (w, None).
Proof.
  unfold iterateRows. rewrite iteratePagesWith_paging. apply run_iterateRows_iter.
Qed.

(** X7.  Over a chain of pages whose tokens lead on until a page with an
    absent or empty token, [iterateRows] ends normally, having issued one
    request a page and yielded exactly the rows of the pages, page after page
    and in the order of each page; in the log the rows of a page stand
    between the request for that page and the request for the next. *)
Theorem X7_iterateRows_yields_the_rows_of_the_chain
    (T : Type) (rowParser : RowParser T) (w : World T) (queryExecutionId : string)
    (xs : list (Exchange T)) (c' : AthenaClient) (p' : AthenaQueryResultParser) :
  let m := maxResults (options (this w)) in
  let l := flatten_log (chain_log queryExecutionId m None xs) in
  Chain (fun p rs => parseResultSetWith p rs rowParser) queryExecutionId m truthy
        (client w) (parser (this w)) None xs c' p' ->
  run (iterateRows queryExecutionId rowParser) w
  ≈ Ret ({| client := c';
            this := {| options := options (this w); parser := p' |};
            log := log w ++ l |}, inr tt)
  /\ yields_of l = List.concat (List.map (@Datatypes.snd _ _) xs)
  /\ length (requests_of l) = length xs.
Proof.
  intros m l Hchain. refine (conj _ (conj _ _)).
  - rewrite run_iterateRows.
    exact (rows_chain Hchain w eq_refl eq_refl eq_refl).
  - apply yields_of_flattened_chain.
  - apply requests_of_flattened_chain.
Qed.

(** X8.  When a fetch fails after some pages, in the service or in the
    parser (a throwing row parser included), [iterateRows] ends with that
    error, unchanged: the rows of the pages before the failure were yielded,
    none of the failed page is (the page is converted as a whole before any
    of its rows is handed on), and the failed request is the last thing in
    the log. *)
Theorem X8_iterateRows_ends_with_the_error_of_a_failed_fetch
    (T : Type) (rowParser : RowParser T) (w : World T) (queryExecutionId : string)
    (xs : list (Exchange T)) (e : Error)
    (c' : AthenaClient) (p' : AthenaQueryResultParser) :
  let m := maxResults (options (this w)) in
  let l := flatten_log (chain_log queryExecutionId m None xs) in
  Broken (fun p rs => parseResultSetWith p rs rowParser) queryExecutionId m truthy
         (client w) (parser (this w)) None xs e c' p' ->
  run (iterateRows queryExecutionId rowParser) w
  ≈ Ret ({| client := c';
            this := {| options := options (this w); parser := p' |};
            log := log w ++ l
                     ++ [Fetched (request queryExecutionId (chain_token None xs) m)] |},
         inl e)
  /\ yields_of (l ++ [Fetched (request queryExecutionId (chain_token None xs) m)])
     = List.concat (List.map (@Datatypes.snd _ _) xs).
Proof.
  intros m l Hbroken. split.
  - rewrite run_iterateRows.
    exact (rows_broken Hbroken w eq_refl eq_refl eq_refl).
  - rewrite yields_of_app. cbn. rewrite app_nil_r. apply yields_of_flattened_chain.
Qed.

(** X9.  Unlike [iteratePages], [iterateRows] can end without yielding
    anything: over pages that all have no rows it sends a request for every
    page, follows the tokens to the end, and yields no row. *)
Theorem X9_iterateRows_yields_nothing_over_empty_pages
    (T : Type) (rowParser : RowParser T) (w : World T) (queryExecutionId : string)
    (xs : list (Exchange T)) (c' : AthenaClient) (p' : AthenaQueryResultParser) :
  let m := maxResults (options (this w)) in
  Chain (fun p rs => parseResultSetWith p rs rowParser) queryExecutionId m truthy
        (client w) (parser (this w)) None xs c' p' ->
  Forall (fun x : Exchange T => Datatypes.snd x = []) xs ->
  exists w',
    run (iterateRows queryExecutionId rowParser) w ≈ Ret (w', inr tt)
    /\ yields_of (log w') = yields_of (log w)
    /\ length (requests_of (log w')) = (length (requests_of (log w)) + length xs)%nat
    /\ xs <> [].
Proof.
  intros m Hchain Hempty. eexists. split; [| split; [| split]].
  - rewrite run_iterateRows.
    exact (rows_chain Hchain w eq_refl eq_refl eq_refl).
  - cbn [log]. rewrite yields_of_app, yields_of_flattened_chain.
    replace (List.concat (List.map (@Datatypes.snd _ _) xs)) with (@nil T);
      [apply app_nil_r |].
    clear Hchain. induction Hempty as [| x xs Hx _ IH]; cbn; [reflexivity |].
    now rewrite Hx, <- IH.
  - cbn [log]. rewrite requests_of_app, length_app, requests_of_flattened_chain.
    reflexivity.
  - destruct (chain_tokens Hchain) as (ys & z & -> & _). now destruct ys.
Qed.

End RowsTheorems.

(** X7, at the test 'yields each row from all pages'. *)
Lemma X7_witness :
  run (iterateRows "exec-1" item_of_row) (fresh_world (createMockSend pages_2_1))
  ≈ Ret (test_world [] default_options {| headerSeen := true |}
           [ Fetched (request "exec-1" None 1000);
             Yielded "1"; Yielded "2";
             Fetched (request "exec-1" (Some "t2") 1000);
             Yielded "3" ],
         inr tt).
Proof.
  refine (proj1 (@X7_iterateRows_yields_the_rows_of_the_chain test_doubles string
                   item_of_row (fresh_world (createMockSend pages_2_1)) "exec-1"
                   [(mock_response true page_id12, ["1"; "2"]);
                    (mock_response false page_id3, ["3"])]
                   [] {| headerSeen := true |} _)).
  eapply chain_link; [reflexivity | reflexivity | reflexivity |].
  eapply chain_last; reflexivity.
Defined.

(** X8, at a row parser that throws on the second row of the second page:
    the row of the first page is yielded, the first row of the second is
    not. *)
Lemma X8_witness :
  run (iterateRows "exec-1" item_unless_2) (fresh_world (createMockSend pages_1_2))
  ≈ Ret (test_world [] default_options {| headerSeen := true |}
           [ Fetched (request "exec-1" None 1000);
             Yielded "3";
             Fetched (request "exec-1" (Some "t2") 1000) ],
         inl "bad row 2").
Proof.
  refine (proj1 (@X8_iterateRows_ends_with_the_error_of_a_failed_fetch test_doubles string
                   item_unless_2 (fresh_world (createMockSend pages_1_2)) "exec-1"
                   [(mock_response true page_id3_t2, ["3"])]
                   "bad row 2" [] {| headerSeen := true |} _)).
  eapply broken_link; [reflexivity | reflexivity | reflexivity |].
  eapply broken_parse; reflexivity.
Defined.

(** X9, at two pages without rows. *)
Lemma X9_witness :
  exists w',
    run (iterateRows "exec-1" item_of_row)
        (fresh_world (createMockSend [page_no_rows_t2; page_no_rows]))
    ≈ Ret (w', inr tt)
    /\ yields_of (log w') = []
    /\ length (requests_of (log w')) = 2%nat
    /\ [(mock_response true page_no_rows_t2, @nil string);
        (mock_response false page_no_rows, [])] <> [].
Proof.
  refine (@X9_iterateRows_yields_nothing_over_empty_pages test_doubles string
            item_of_row (fresh_world (createMockSend [page_no_rows_t2; page_no_rows]))
            "exec-1"
            [(mock_response true page_no_rows_t2, []);
             (mock_response false page_no_rows, [])]
            [] {| headerSeen := true |} _ _).
  - eapply chain_link; [reflexivity | reflexivity | reflexivity |].
    eapply chain_last; reflexivity.
  - repeat constructor.
Defined.

(** ** Rows, whatever the service does *)

Section RowsAnyService.

Context {collaborators : Collaborators}.

Lemma rows_follow_protocol (T : Type)
    (parse : AthenaQueryResultParser -> option ResultSet ->
             AthenaQueryResultParser * (Error + list T))
    (queryExecutionId : string) (tok : option string)
    (w w' : World T) (r : Error + unit) :
  ITree.iter (E := void1)
    (fun st => Ret (rows_step (fetched parse queryExecutionId) st)) (w, tok)
  ≈ Ret (w', r) ->
  options (this w') = options (this w)
  /\ exists lp, log w' = log w ++ flatten_log lp
                /\ Paged queryExecutionId (maxResults (options (this w))) tok lp
                         (ended_normally r).
Proof.
  intros Hrun.
  set (m := maxResults (options (this w))).
  refine (@iter_pure_post _ _
            (rows_step (fetched parse queryExecutionId))
            (fun st => options (this (Datatypes.fst st)) = options (this w)
                       /\ exists l1, log (Datatypes.fst st) = log w ++ flatten_log l1
                            /\ forall l2 b,
                                 Paged queryExecutionId m (Datatypes.snd st) l2 b ->
                                 Paged queryExecutionId m tok (l1 ++ l2) b)
            (fun res => options (this (Datatypes.fst res)) = options (this w)
                        /\ exists lp, log (Datatypes.fst res) = log w ++ flatten_log lp
                             /\ Paged queryExecutionId m tok lp
                                      (ended_normally (Datatypes.snd res)))
            _ (w, tok) (w', r) _ Hrun).
  - intros [w1 tok1] (Hopt & l1 & Hl1 & Hk). cbn [Datatypes.fst Datatypes.snd] in *.
    unfold rows_step, fetched. cbn [Datatypes.fst Datatypes.snd].
    rewrite Hopt. fold m.
    destruct (send _ _) as [c [e | response]].
    + cbn. split; [exact Hopt |].
      exists (l1 ++ [Fetched (request queryExecutionId tok1 m)]). split.
      * rewrite Hl1, flatten_log_app, <- app_assoc. reflexivity.
      * apply Hk. constructor.
    + destruct (parse _ _) as [p [e | rs]].
      * cbn. split; [exact Hopt |].
        exists (l1 ++ [Fetched (request queryExecutionId tok1 m)]). split.
        -- rewrite Hl1, flatten_log_app, <- app_assoc. reflexivity.
        -- apply Hk. constructor.
      * destruct (truthy (prop_read (nextToken (page_of response rs)))) eqn:Ht.
        -- cbn [Datatypes.fst Datatypes.snd].
           cbn [yielded_all with_parser sent this options log].
           split; [exact Hopt |].
           exists (l1 ++ [Fetched (request queryExecutionId tok1 m);
                          Yielded (page_of response rs)]).
           split.
           ++ rewrite Hl1, flatten_log_app. cbn. rewrite app_nil_r, <- !app_assoc.
              reflexivity.
           ++ intros l2 b H2. rewrite <- app_assoc. apply Hk. cbn.
              apply paged_more; assumption.
        -- cbn [Datatypes.fst Datatypes.snd].
           cbn [yielded_all with_parser sent this options log].
           split; [exact Hopt |].
           exists (l1 ++ [Fetched (request queryExecutionId tok1 m);
                          Yielded (page_of response rs)]).
           split.
           ++ rewrite Hl1, flatten_log_app. cbn. rewrite app_nil_r, <- !app_assoc.
              reflexivity.
           ++ apply Hk. cbn. apply paged_last. exact Ht.
  - cbn. split; [reflexivity |]. exists []. split; [now rewrite app_nil_r |].
    intros l2 b H2. exact H2.
Qed.

(** X10.  Whatever the service, the parser and the row parser do, a run of
    [iterateRows] that ends has followed the paging protocol too: what it
    added to the log is a protocol log of pages with every page replaced by
    its rows.  So its first request has no token, every request carries the
    same query execution id and [maxResults], no request carries the empty
    string for a token, the rows yielded are those of the pages in order, and
    the pager's options are as before. *)
Theorem X10_iterateRows_follows_the_paging_protocol
    (T : Type) (rowParser : RowParser T) (queryExecutionId : string)
    (w w' : World T) (r : Error + unit) :
  run (iterateRows queryExecutionId rowParser) w ≈ Ret (w', r) ->
  let m := maxResults (options (this w)) in
  options (this w') = options (this w)
  /\ exists lp,
       log w' = log w ++ flatten_log lp
       /\ Paged queryExecutionId m None lp (ended_normally r)
       /\ (exists l', flatten_log lp = Fetched (request queryExecutionId None m) :: l')
       /\ Forall (fun input =>
                    js_get input "QueryExecutionId" = JsString queryExecutionId
                    /\ js_get input "MaxResults" = JsNumber m)
                 (requests_of (flatten_log lp))
       /\ Forall (fun input => js_get input "NextToken" <> JsString "")
                 (requests_of (flatten_log lp))
       /\ yields_of (flatten_log lp) = List.concat (List.map (@rows T) (yields_of lp)).
Proof.
  intros Hrun m. rewrite run_iterateRows in Hrun.
  destruct (@rows_follow_protocol _ _ _ _ _ _ _ Hrun) as (Hopt & lp & Hlog & HP).
  split; [exact Hopt |]. exists lp.
  destruct (Paged_facts HP) as ((l' & Hl') & Hq & Hne & _).
  refine (conj Hlog (conj HP (conj _ (conj _ (conj _ _))))).
  - rewrite Hl'. cbn. eauto.
  - rewrite requests_of_flatten_log. exact Hq.
  - rewrite requests_of_flatten_log. rewrite Hl' in Hne |- *. cbn in Hne |- *.
    constructor; [discriminate | exact Hne].
  - apply yields_of_flatten_log.
Qed.

End RowsAnyService.

(** X10, at a row parser that throws on the second page: the log of rows is
    a protocol log of pages, ended by an exception, with its one page
    replaced by its row. *)
Lemma X10_witness :
  exists lp,
    [ Fetched (request "exec-1" None 1000);
      Yielded "3";
      Fetched (request "exec-1" (Some "t2") 1000) ] = flatten_log lp
    /\ Paged "exec-1" 1000 None lp false
    /\ yields_of (flatten_log lp) = List.concat (List.map (@rows string) (yields_of lp)).
Proof.
  assert (Hrun :
    run (iterateRows "exec-1" item_unless_2) (fresh_world (createMockSend pages_1_2))
    ≈ Ret (test_world [] default_options {| headerSeen := true |}
             [ Fetched (request "exec-1" None 1000);
               Yielded "3";
               Fetched (request "exec-1" (Some "t2") 1000) ],
           inl "bad row 2")).
  { rewrite run_iterateRows.
    refine (rows_broken (collaborators := test_doubles)
              (xs := [(mock_response true page_id3_t2, ["3"])])
              _ _ eq_refl eq_refl eq_refl).
    eapply broken_link; [reflexivity | reflexivity | reflexivity |].
    eapply broken_parse; reflexivity. }
  destruct (@X10_iterateRows_follows_the_paging_protocol test_doubles string
              item_unless_2 "exec-1" _ _ _ Hrun)
    as (_ & lp & Hlog & HP & _ & _ & _ & Hyields).
  exists lp. exact (conj Hlog (conj HP Hyields)).
Defined.

(** ** In front of the scripted client of the tests *)

Section Scripted.

Variable T : Type.
Variable parse :
  @AthenaQueryResultParser test_doubles -> option ResultSet ->
  @AthenaQueryResultParser test_doubles * (@Error test_doubles + list T).
Variable queryExecutionId : string.

(** A page fetch takes one answer off the script; past the script the page
    it makes has no token. *)
Lemma scripted_fetched (Y : Type) (tok : option string) (w : @World test_doubles Y) :
  exists w1 r,
    fetched parse queryExecutionId tok w = (w1, r)
    /\ client w1 = List.tl (client w : Script)
    /\ length (requests_of (log w1)) = S (length (requests_of (log w)))
    /\ yields_of (log w1) = yields_of (log w)
    /\ ((client w : Script) = [] ->
        match r with
        | inl _ => True
        | inr page => truthy (prop_read (nextToken page)) = false
        end).
Proof.
  unfold fetched. destruct w as [s t l]. cbn [client this log].
  assert (Hlen : length (requests_of
                   (l ++ [Fetched (request queryExecutionId tok (maxResults (options t)))]))
                 = S (length (requests_of l))).
  { rewrite requests_of_app, length_app. cbn. lia. }
  assert (Hy : yields_of
                 (l ++ [Fetched (request queryExecutionId tok (maxResults (options t)))])
               = yields_of l).
  { rewrite yields_of_app. cbn. apply app_nil_r. }
  destruct s as [| [e | response] s]; cbn [send test_doubles send_script].
  - destruct (parse _ _) as [p [e | rs]]; eexists _, _;
      (split; [reflexivity |]); cbn; auto.
  - eexists _, _. split; [reflexivity |]. cbn.
    refine (conj eq_refl (conj Hlen (conj Hy _))). discriminate.
  - destruct (parse _ _) as [p [e | rs]]; eexists _, _;
      (split; [reflexivity |]); cbn;
      refine (conj eq_refl (conj Hlen (conj Hy _))); discriminate.
Qed.

Lemma scripted_paging_ends (s : Script) :
  forall (tok : option string) (w : @World test_doubles (PageResult T)),
    (client w : Script) = s ->
    exists w' r,
      ITree.iter (E := void1)
        (fun st => Ret (paging_step (fetched parse queryExecutionId) st)) (w, tok)
      ≈ Ret (w', r)
      /\ (length (requests_of (log w'))
          <= length (requests_of (log w)) + length s + 1)%nat.
Proof.
  induction s as [| a s IH]; intros tok w Hc;
    destruct (scripted_fetched tok w) as (w1 & r1 & Hf & Hc1 & Hlen & _ & Hlast);
    pose proof (iter_pure_unfold (paging_step (fetched parse queryExecutionId)) (w, tok))
      as Hu;
    unfold paging_step at 2 in Hu; cbn [Datatypes.fst Datatypes.snd] in Hu;
    rewrite Hf in Hu; rewrite Hc in Hc1, Hlast; cbn [List.tl] in Hc1.
  - destruct r1 as [e | page].
    + exists w1, (inl e). split; [exact Hu | lia].
    + rewrite (Hlast eq_refl) in Hu.
      exists (yielded page w1), (inr tt). split; [exact Hu |].
      cbn. rewrite requests_of_app, length_app. cbn. lia.
  - destruct r1 as [e | page].
    + exists w1, (inl e). split; [exact Hu | lia].
    + destruct (truthy (prop_read (nextToken page))).
      * destruct (IH (prop_read (nextToken page)) (yielded page w1) Hc1)
          as (w' & r & Hrun & Hbound).
        exists w', r. split; [rewrite Hu; exact Hrun |].
        cbn in Hbound. rewrite requests_of_app, length_app in Hbound.
        cbn in Hbound |- *. lia.
      * exists (yielded page w1), (inr tt). split; [exact Hu |].
        cbn. rewrite requests_of_app, length_app. cbn. lia.
Qed.

Lemma requests_of_yielded_all (rs : list T) (w : @World test_doubles T) :
  requests_of (log (yielded_all rs w)) = requests_of (log w).
Proof.
  cbn. rewrite requests_of_app.
  replace (requests_of (List.map (@Yielded T) rs)) with (@nil GetQueryResultsCommandInput);
    [apply app_nil_r |].
  induction rs as [| r rs IH]; cbn; [reflexivity | exact IH].
Qed.

Lemma scripted_rows_end (s : Script) :
  forall (tok : option string) (w : @World test_doubles T),
    (client w : Script) = s ->
    exists w' r,
      ITree.iter (E := void1)
        (fun st => Ret (rows_step (fetched parse queryExecutionId) st)) (w, tok)
      ≈ Ret (w', r)
      /\ (length (requests_of (log w'))
          <= length (requests_of (log w)) + length s + 1)%nat.
Proof.
  induction s as [| a s IH]; intros tok w Hc;
    destruct (scripted_fetched tok w) as (w1 & r1 & Hf & Hc1 & Hlen & _ & Hlast);
    pose proof (iter_pure_unfold (rows_step (fetched parse queryExecutionId)) (w, tok))
      as Hu;
    unfold rows_step at 2 in Hu; cbn [Datatypes.fst Datatypes.snd] in Hu;
    rewrite Hf in Hu; rewrite Hc in Hc1, Hlast; cbn [List.tl] in Hc1.
  - destruct r1 as [e | page].
    + exists w1, (inl e). split; [exact Hu | lia].
    + rewrite (Hlast eq_refl) in Hu.
      exists (yielded_all (rows page) w1), (inr tt). split; [exact Hu |].
      rewrite requests_of_yielded_all. lia.
  - destruct r1 as [e | page].
    + exists w1, (inl e). split; [exact Hu | lia].
    + destruct (truthy (prop_read (nextToken page))).
      * destruct (IH (prop_read (nextToken page)) (yielded_all (rows page) w1) Hc1)
          as (w' & r & Hrun & Hbound).
        exists w', r. split; [rewrite Hu; exact Hrun |].
        rewrite requests_of_yielded_all in Hbound. cbn [length]. lia.
      * exists (yielded_all (rows page) w1), (inr tt). split; [exact Hu |].
        rewrite requests_of_yielded_all. cbn [length]. lia.
Qed.

End Scripted.

(** X12.  In front of the scripted client of the tests every generator
    ends, whatever the script, the parser state and the row parser: a call
    past the script is answered by an empty page without token, which ends
    the loop, so a run sends at most one request more than the script is
    long. *)
Theorem X12_generators_end_in_front_of_a_scripted_client :
  (forall queryExecutionId (w : @World test_doubles (PageResult ParsedRow)),
      exists w' r,
        run (iteratePages queryExecutionId) w ≈ Ret (w', r)
        /\ (length (requests_of (log w'))
            <= length (requests_of (log w)) + length (client w : Script) + 1)%nat)
  /\ (forall (T : Type) (rowParser : @RowParser test_doubles T) queryExecutionId
             (w : @World test_doubles (PageResult T)),
         exists w' r,
           run (iteratePagesWith queryExecutionId rowParser) w ≈ Ret (w', r)
           /\ (length (requests_of (log w'))
               <= length (requests_of (log w)) + length (client w : Script) + 1)%nat)
  /\ (forall (T : Type) (rowParser : @RowParser test_doubles T) queryExecutionId
             (w : @World test_doubles T),
         exists w' r,
           run (iterateRows queryExecutionId rowParser) w ≈ Ret (w', r)
           /\ (length (requests_of (log w'))
               <= length (requests_of (log w)) + length (client w : Script) + 1)%nat).
Proof.
  refine (conj _ (conj _ _)).
  - intros q w.
    destruct (@scripted_paging_ends _ (@parseResultSet test_doubles) q (client w) None w
                eq_refl) as (w' & r & Hrun & Hbound).
    exists w', r. split; [| exact Hbound].
    rewrite iteratePages_paging.
    rewrite (run_paging_iter _ _ (fun tok w => run_fetchPage q tok w)). exact Hrun.
  - intros T rp q w.
    destruct (@scripted_paging_ends _
                (fun p rs => @parseResultSetWith test_doubles T p rs rp) q (client w)
                None w eq_refl) as (w' & r & Hrun & Hbound).
    exists w', r. split; [| exact Hbound].
    rewrite iteratePagesWith_paging.
    rewrite (run_paging_iter _ _ (fun tok w => run_fetchPageWith q rp tok w)). exact Hrun.
  - intros T rp q w.
    destruct (@scripted_rows_end _
                (fun p rs => @parseResultSetWith test_doubles T p rs rp) q (client w)
                None w eq_refl) as (w' & r & Hrun & Hbound).
    exists w', r. split; [| exact Hbound].
    rewrite run_iterateRows. exact Hrun.
Qed.

(** ** The test doubles themselves *)

Lemma row_get_headerRow (cols : list string) (col : string) :
  In col cols ->
  row_get (List.map (fun col => (col, Some col)) cols) col = Some (Some col).
Proof.
  induction cols as [| k cols IH]; cbn; [contradiction |].
  intros Hin. destruct (String.eqb_spec k col) as [-> | Hne]; [reflexivity |].
  destruct Hin as [Heq | Hin]; [contradiction | exact (IH Hin)].
Qed.

Lemma map_ext_Forall2 (A B : Type) (P : A -> B -> Prop) (f : A -> B) (l : list A) :
  (forall a, P a (f a)) -> Forall2 P l (List.map f l).
Proof. intros H. induction l; cbn; constructor; auto. Qed.

Lemma length_Rows_createMockResultSet (rs : list ParsedRow) :
  length (Rows (createMockResultSet rs)) = length rs.
Proof. destruct rs; cbn; [reflexivity | now rewrite length_map]. Qed.

Lemma inherited_In (col : string) :
  inherited col = true <-> In col Object_prototype_members.
Proof.
  unfold inherited. rewrite existsb_exists. split.
  - intros (x & Hin & Heq). apply String.eqb_eq in Heq. now subst.
  - intros Hin. exists col. split; [exact Hin | apply String.eqb_refl].
Qed.

(** What [r[col] ?? undefined] holds: a string exactly when the row has a
    string of its own there, and something that is neither a string nor
    [undefined] exactly when the row has no such property of its own and
    [col] names a member of [Object.prototype]. *)
Lemma index_or_undefined_cases (r : ParsedRow) (col : string) :
  (forall s, index_or_undefined r col = CellString s <-> row_get r col = Some (Some s))
  /\ (forall member,
         index_or_undefined r col = CellInherited member
         <-> member = col /\ row_get r col = None /\ In col Object_prototype_members).
Proof.
  unfold index_or_undefined. pose proof (inherited_In col) as Hmem.
  destruct (row_get r col) as [[s0 |] |].
  - split; intros x; split; intros H.
    + now injection H as <-.
    + now injection H as <-.
    + discriminate H.
    + destruct H as (_ & H & _). discriminate H.
  - split; intros x; split; intros H; try discriminate H.
    destruct H as (_ & H & _). discriminate H.
  - destruct (inherited col).
    + split; intros x; split; intros H; try discriminate H.
      * injection H as <-. refine (conj eq_refl (conj eq_refl _)). now apply Hmem.
      * destruct H as (-> & _ & _). reflexivity.
    + split; intros x; split; intros H; try discriminate H.
      destruct H as (_ & _ & H). apply Hmem in H. discriminate H.
Qed.

(** X13.  [createMockResultSet] makes a rectangular result set of any rows,
    ragged or not: one row for every row given, in every row one cell for
    every column, the columns being the keys of the first row given, all of
    type [varchar].  A cell holds a string exactly when its row has a string
    of its own under the column.  Where the row has [null] or no such
    property the cell is [undefined], with one exception: when the row has no
    such property and the column is named like a member of
    [Object.prototype], the cell holds that member, which is neither a string
    nor [undefined]. *)
Theorem X13_createMockResultSet_is_rectangular (rs : list ParsedRow) :
  length (Rows (createMockResultSet rs)) = length rs
  /\ Forall (fun row => length (Data row)
                        = length (ResultSetMetadata (createMockResultSet rs)))
            (Rows (createMockResultSet rs))
  /\ Forall (fun c => Type_ c = "varchar") (ResultSetMetadata (createMockResultSet rs))
  /\ List.map Name (ResultSetMetadata (createMockResultSet rs))
     = List.map (@Datatypes.fst string (option string)) (List.hd [] rs)
  /\ Forall2 (fun r row =>
                Forall2 (fun c cell =>
                           (forall s, VarCharValue cell = CellString s
                                      <-> row_get r (Name c) = Some (Some s))
                           /\ (forall member,
                                  VarCharValue cell = CellInherited member
                                  <-> member = Name c
                                      /\ row_get r (Name c) = None
                                      /\ In (Name c) Object_prototype_members))
                        (ResultSetMetadata (createMockResultSet rs)) (Data row))
             rs (Rows (createMockResultSet rs)).
Proof.
  destruct rs as [| r0 rs]; cbn [createMockResultSet ResultSetMetadata Rows List.hd].
  - repeat split; constructor.
  - set (columns := List.map (@Datatypes.fst string (option string)) r0).
    refine (conj _ (conj _ (conj _ (conj _ _)))).
    + now rewrite length_map.
    + apply Forall_forall. intros row Hin. apply in_map_iff in Hin.
      destruct Hin as (r & <- & _). cbn. now rewrite !length_map.
    + apply Forall_forall. intros c Hin. apply in_map_iff in Hin.
      now destruct Hin as (name & <- & _).
    + rewrite List.map_map. cbn. apply List.map_id.
    + apply map_ext_Forall2. intros r. cbn [Data].
      induction columns as [| col columns IH]; cbn; constructor; [| exact IH].
      cbn [VarCharValue Name]. apply index_or_undefined_cases.
Qed.

(** X14.  The answers of [createMockSend]: one for every page, with the
    token of the page.  The first answer starts with a header row, a row
    whose cells are the column names, followed by one row for every row of
    the page; the other answers have one row for every row of their page,
    and no header row of their own. *)
Theorem X14_createMockSend_puts_a_header_before_the_first_page
    (page : MockPage) (pages : list MockPage) :
  exists first rest,
    createMockSend (page :: pages) = inr first :: List.map inr rest
    /\ NextToken first = mock_nextToken page
    /\ (exists rs0 header data,
           ResultSet_ first = Some rs0
           /\ Rows rs0 = header :: data
           /\ List.map VarCharValue (Data header)
              = List.map CellString (List.map Name (ResultSetMetadata rs0))
           /\ length data = length (mock_rows page))
    /\ Forall2 (fun q answer =>
                  NextToken answer = mock_nextToken q
                  /\ exists rs, ResultSet_ answer = Some rs
                                /\ length (Rows rs) = length (mock_rows q))
               pages rest.
Proof.
  exists (mock_response true page), (List.map (mock_response false) pages).
  refine (conj _ (conj eq_refl (conj _ _))).
  - cbn [createMockSend]. now rewrite List.map_map.
  - unfold mock_response. cbn [ResultSet_ createMockResultSet].
    eexists _, _, _. refine (conj eq_refl (conj eq_refl (conj _ _))).
    + cbn [Data ResultSetMetadata]. rewrite !List.map_map. cbn [VarCharValue Name].
      apply List.map_ext_in. intros col Hin.
      unfold headerRow in Hin |- *.
      destruct (mock_rows page) as [| r0 rows0]; [contradiction |].
      apply in_map_iff in Hin. destruct Hin as (k & <- & Hin). cbn [Datatypes.fst].
      unfold index_or_undefined. now rewrite row_get_headerRow.
    + apply length_map.
  - apply map_ext_Forall2. intros q. split; [reflexivity |].
    unfold mock_response. cbn [ResultSet_ NextToken]. eexists. split; [reflexivity |].
    apply length_Rows_createMockResultSet.
Qed.

(** ** [hasNextPage] on the pages of a generator *)

Section HasNextPage.

Context {collaborators : Collaborators}.

Lemma truthy_present (v : option string) : truthy v = true -> present v = true.
Proof. destruct v; [reflexivity | discriminate]. Qed.

Lemma falsy_present (v : option string) :
  truthy v = false -> (present v = true <-> v = Some "").
Proof.
  intros Hf. destruct (falsy_cases _ Hf) as [-> | ->]; cbn; split;
    try discriminate; reflexivity.
Qed.

Lemma Paged_hasNextPage (T : Type) (queryExecutionId : string) (m : Z)
    (tok : option string) (l : list (Observed (PageResult T))) (b : bool) :
  Paged queryExecutionId m tok l b ->
  if b
  then exists ps last,
         yields_of l = ps ++ [last]
         /\ Forall (fun page => hasNextPage page = true) ps
         /\ (hasNextPage last = true <-> prop_read (nextToken last) = Some "")
  else Forall (fun page => hasNextPage page = true) (yields_of l).
Proof.
  induction 1 as [tok | tok page Hf | tok page l b Ht _ IH].
  - constructor.
  - exists [], page. cbn. refine (conj eq_refl (conj (Forall_nil _) _)).
    apply falsy_present. exact Hf.
  - apply truthy_present in Ht. destruct b.
    + destruct IH as (ps & last & Hy & Hps & Hlast).
      exists (page :: ps), last. cbn. rewrite Hy.
      refine (conj eq_refl (conj _ Hlast)). now constructor.
    + cbn. now constructor.
Qed.

(** X15.  [hasNextPage] on what the page generators yield, whatever the
    service and the parser do: it is true of every page but the last of a run
    that ended normally, and of the last only when its token is the empty
    string, the one page on which the generators and [hasNextPage] disagree;
    it is true of every page of a run that ended by an exception. *)
Theorem X15_hasNextPage_on_the_pages_of_a_run
    (T : Type) (rowParser : RowParser T) (queryExecutionId : string) :
  (forall (w w' : World (PageResult ParsedRow)) r,
      run (iteratePages queryExecutionId) w ≈ Ret (w', r) ->
      exists l,
        log w' = log w ++ l
        /\ match r with
           | inr _ =>
               exists ps last,
                 yields_of l = ps ++ [last]
                 /\ Forall (fun page => hasNextPage page = true) ps
                 /\ (hasNextPage last = true <-> prop_read (nextToken last) = Some "")
           | inl _ => Forall (fun page => hasNextPage page = true) (yields_of l)
           end)
  /\ (forall (w w' : World (PageResult T)) r,
         run (iteratePagesWith queryExecutionId rowParser) w ≈ Ret (w', r) ->
         exists l,
           log w' = log w ++ l
           /\ match r with
              | inr _ =>
                  exists ps last,
                    yields_of l = ps ++ [last]
                    /\ Forall (fun page => hasNextPage page = true) ps
                    /\ (hasNextPage last = true <-> prop_read (nextToken last) = Some "")
              | inl _ => Forall (fun page => hasNextPage page = true) (yields_of l)
              end).
Proof.
  split.
  - intros w w' r Hrun. rewrite iteratePages_paging in Hrun.
    destruct (@paging_follows_protocol _ _ parseResultSet (fetchPage queryExecutionId)
                queryExecutionId
                (fun tok w => run_fetchPage queryExecutionId tok w) None w w' r Hrun)
      as (_ & l & Hlog & HP).
    exists l. split; [exact Hlog |].
    apply Paged_hasNextPage in HP. destruct r; exact HP.
  - intros w w' r Hrun. rewrite iteratePagesWith_paging in Hrun.
    destruct (@paging_follows_protocol _ _
                (fun p rs => parseResultSetWith p rs rowParser)
                (fetchPageWith queryExecutionId rowParser) queryExecutionId
                (fun tok w => run_fetchPageWith queryExecutionId rowParser tok w)
                None w w' r Hrun)
      as (_ & l & Hlog & HP).
    exists l. split; [exact Hlog |].
    apply Paged_hasNextPage in HP. destruct r; exact HP.
Qed.

End HasNextPage.

(** X15, at the pages of the test 'yields multiple pages until nextToken is
    undefined': [hasNextPage] holds of the first two, not of the third. *)
Lemma X15_witness :
  exists ps last,
    [ exchange_page (exchange_of true page_x1);
      exchange_page (exchange_of false page_x2);
      exchange_page (exchange_of false page_x3) ] = ps ++ [last]
    /\ Forall (fun page => hasNextPage page = true) ps
    /\ (hasNextPage last = true <-> prop_read (nextToken last) = Some "").
Proof.
  assert (Hrun :
    run (iteratePages "exec-1") (fresh_world (createMockSend three_pages))
    ≈ Ret (world_after (collaborators := test_doubles) "exec-1" 1000
             (fresh_world (createMockSend three_pages)) None
             [exchange_of true page_x1; exchange_of false page_x2;
              exchange_of false page_x3]
             [] [] {| headerSeen := true |},
           inr tt)).
  { rewrite iteratePages_paging.
    refine (run_chain (collaborators := test_doubles) (fetchPage "exec-1")
              (fun tok w => run_fetchPage "exec-1" tok w)
              _ _ eq_refl eq_refl eq_refl).
    eapply chain_link; [reflexivity | reflexivity | reflexivity |].
    eapply chain_link; [reflexivity | reflexivity | reflexivity |].
    eapply chain_last; reflexivity. }
  destruct (proj1 (@X15_hasNextPage_on_the_pages_of_a_run test_doubles string
                     item_of_row "exec-1") _ _ _ Hrun)
    as (l & Hlog & ps & last & Hy & Hps & Hlast).
  exists ps, last. refine (conj _ (conj Hps Hlast)).
  rewrite <- Hy. cbn in Hlog. rewrite <- Hlog. reflexivity.
Defined.
